(** * goasa: the PostgreSQL access layer of package daas (postgres.go)

    A shallow embedding of the transactional query/row layer, the DSN
    assembly, the diagnostic query logger and the notification channel
    handle, together with the parts of the Go standard library that the
    source calls (strconv, fmt, time, strings, regexp, database/sql).

    Go values are modelled as the code has them: a string is a sequence
    of bytes, an int64 is a [Z] in the signed 64-bit range, a uint64 is a
    [Z] reduced modulo 2^64, a map[string]string is a [gmap string string]
    behind a possibly nil reference, a panic is an explicit outcome.  The
    handles of database/sql and lib/pq are modelled by what they answer.

    [Connect] is modelled by the calls it makes on the pool.  Left out:
    [PGClient.Close], which only releases the pool, and the goroutine
    [Listen] starts to serve notifications. *)

From Stdlib Require Import ZArith Lia Ascii String List Bool.
From stdpp Require Import base gmap strings list.

Local Open Scope Z_scope.

(** ** Bytes of a Go string *)

Definition byte (c : ascii) : Z := Z.of_N (N_of_ascii c).
Definition chr (z : Z) : ascii := ascii_of_N (Z.to_N z).

Definition wrap64 (z : Z) : Z := z mod 2 ^ 64.

Definition is_digit (c : ascii) : bool := (byte "0" <=? byte c) && (byte c <=? byte "9").

Definition string_in (s : string) (l : list string) : bool :=
  existsb (String.eqb s) l.

(** ** Package strconv *)

Module strconv.

Inductive ErrKind :=
| ErrSyntax
| ErrRange
| ErrBase (base : Z)
| ErrBitSize (bitSize : Z).

(** [*strconv.NumError] *)
Record NumError := { Func : string; Num : string; Err : ErrKind }.

Definition syntaxError (fn str : string) : NumError :=
  {| Func := fn; Num := str; Err := ErrSyntax |}.
Definition rangeError (fn str : string) : NumError :=
  {| Func := fn; Num := str; Err := ErrRange |}.

(** [strconv.ParseBool] *)
Definition ParseBool (str : string) : bool * option NumError :=
  if string_in str ["1"; "t"; "T"; "true"; "TRUE"; "True"] then (true, None)
  else if string_in str ["0"; "f"; "F"; "false"; "FALSE"; "False"] then (false, None)
  else (false, Some (syntaxError "ParseBool" str)).

Definition IntSize : Z := 64.
Definition maxUint64 : Z := 2 ^ 64 - 1.

(** [lower(c)] is [c | ('x' - 'X')] *)
Definition lower (c : Z) : Z := Z.lor c 32.

(** The kind of the last character seen by [underscoreOK]. *)
Inductive saw := SawStart | SawDigit | SawUnderscore | SawOther.

Fixpoint underscoreOK_loop (hex : bool) (s : string) (sw : saw) : bool :=
  match s with
  | EmptyString => match sw with SawUnderscore => false | _ => true end
  | String ch rest =>
    let c := byte ch in
    if ((byte "0" <=? c) && (c <=? byte "9"))
       || (hex && (byte "a" <=? lower c) && (lower c <=? byte "f"))
    then underscoreOK_loop hex rest SawDigit
    else if c =? byte "_" then
      match sw with
      | SawDigit => underscoreOK_loop hex rest SawUnderscore
      | _ => false
      end
    else
      match sw with
      | SawUnderscore => false
      | _ => underscoreOK_loop hex rest SawOther
      end
  end.

Definition underscoreOK (s : string) : bool :=
  let s :=
    match s with
    | String ch rest => if (byte ch =? byte "-") || (byte ch =? byte "+") then rest else s
    | EmptyString => s
    end in
  match s with
  | String c0 (String c1 rest) =>
    if (byte c0 =? byte "0")
       && ((lower (byte c1) =? byte "b") || (lower (byte c1) =? byte "o")
           || (lower (byte c1) =? byte "x"))
    then underscoreOK_loop (lower (byte c1) =? byte "x") rest SawDigit
    else underscoreOK_loop false s SawStart
  | _ => underscoreOK_loop false s SawStart
  end.

Inductive loop_result :=
| LoopSyntax
| LoopRange
| LoopDone (n : Z) (underscores : bool).

(** The digit loop of [ParseUint]; [n] is the uint64 accumulator. *)
Fixpoint ParseUint_loop (base : Z) (base0 : bool) (cutoff maxVal : Z)
         (s : string) (n : Z) (underscores : bool) : loop_result :=
  match s with
  | EmptyString => LoopDone n underscores
  | String ch rest =>
    let c := byte ch in
    if (c =? byte "_") && base0 then
      ParseUint_loop base base0 cutoff maxVal rest n true
    else
      let od :=
        if (byte "0" <=? c) && (c <=? byte "9") then Some (c - byte "0")
        else if (byte "a" <=? lower c) && (lower c <=? byte "z")
             then Some (lower c - byte "a" + 10)
             else None in
      match od with
      | None => LoopSyntax
      | Some d =>
        if base <=? d then LoopSyntax
        else if cutoff <=? n then LoopRange
        else
          let n' := wrap64 (n * base) in
          let n1 := wrap64 (n' + d) in
          if (n1 <? n') || (maxVal <? n1) then LoopRange
          else ParseUint_loop base base0 cutoff maxVal rest n1 underscores
      end
  end.

(** [strconv.ParseUint] *)
Definition ParseUint (s : string) (base bitSize : Z) : Z * option NumError :=
  let fnParseUint := "ParseUint"%string in
  match s with
  | EmptyString => (0, Some (syntaxError fnParseUint s))
  | String c0 tl =>
    let base0 := base =? 0 in
    let s0 := s in
    let prefixed : option (Z * string) :=
      if (2 <=? base) && (base <=? 36) then Some (base, s)
      else if base =? 0 then
        if byte c0 =? byte "0" then
          match tl with
          | String c1 (String c2 tl2) =>
            if lower (byte c1) =? byte "b" then Some (2, String c2 tl2)
            else if lower (byte c1) =? byte "o" then Some (8, String c2 tl2)
            else if lower (byte c1) =? byte "x" then Some (16, String c2 tl2)
            else Some (8, tl)
          | _ => Some (8, tl)
          end
        else Some (10, s)
      else None in
    match prefixed with
    | None =>
      (0, Some {| Func := fnParseUint; Num := s0; Err := ErrBase base |})
    | Some (base, s) =>
      if negb (bitSize =? 0) && ((bitSize <? 0) || (64 <? bitSize)) then
        (0, Some {| Func := fnParseUint; Num := s0; Err := ErrBitSize bitSize |})
      else
        let bitSize := if bitSize =? 0 then IntSize else bitSize in
        let cutoff := maxUint64 / base + 1 in
        let maxVal := wrap64 (Z.shiftl 1 bitSize) - 1 in
        let maxVal := wrap64 maxVal in
        match ParseUint_loop base base0 cutoff maxVal s 0 false with
        | LoopSyntax => (0, Some (syntaxError fnParseUint s0))
        | LoopRange => (maxVal, Some (rangeError fnParseUint s0))
        | LoopDone n underscores =>
          if underscores && negb (underscoreOK s0)
          then (0, Some (syntaxError fnParseUint s0))
          else (n, None)
        end
    end
  end.

(** [strconv.ParseInt] *)
Definition ParseInt (s : string) (base bitSize : Z) : Z * option NumError :=
  let fnParseInt := "ParseInt"%string in
  match s with
  | EmptyString => (0, Some (syntaxError fnParseInt s))
  | String c0 tl =>
    let s0 := s in
    let '(neg, s) :=
      if byte c0 =? byte "+" then (false, tl)
      else if byte c0 =? byte "-" then (true, tl)
      else (false, s) in
    let '(un, err) := ParseUint s base bitSize in
    let fatal :=
      match err with
      | Some e => match Err e with ErrRange => None | k => Some k end
      | None => None
      end in
    match fatal with
    | Some k => (0, Some {| Func := fnParseInt; Num := s0; Err := k |})
    | None =>
      let bitSize := if bitSize =? 0 then IntSize else bitSize in
      let cutoff := wrap64 (Z.shiftl 1 (bitSize - 1)) in
      if negb neg && (cutoff <=? un) then (cutoff - 1, Some (rangeError fnParseInt s0))
      else if neg && (cutoff <? un) then (- cutoff, Some (rangeError fnParseInt s0))
      else ((if neg then - un else un), None)
    end
  end.

End strconv.

(** ** Package fmt *)

Module fmt.

(** The digit loop of [fmtInteger] in base 10: the buffer is filled from
    its end, [acc] is the part already written.  A uint64 has at most 20
    decimal digits, so 20 iterations always suffice. *)
Fixpoint fmtInteger_loop (fuel : nat) (u : Z) (acc : string) : string :=
  match fuel with
  | O => acc
  | S fuel' =>
    if 10 <=? u then
      let next := u / 10 in
      fmtInteger_loop fuel' next (String (chr (byte "0" + u - next * 10)) acc)
    else String (chr (byte "0" + u)) acc
  end.

(** [fmt.Sprint(v)] for [v] of type int64 (verb [%v], i.e. [%d]) *)
Definition Sprint_int64 (v : Z) : string :=
  let negative := v <? 0 in
  let u := if negative then wrap64 (- v) else wrap64 v in
  let digits := fmtInteger_loop 20 u EmptyString in
  if negative then String "-" digits else digits.

(** [fmt.Sprintf("%t", b)] *)
Definition Sprintf_t (b : bool) : string :=
  if b then "true"%string else "false"%string.

End fmt.

(** ** Strings: the helpers of package strings and byte slicing *)

Fixpoint str_take (n : nat) (s : string) : string :=
  match n, s with
  | S n', String c rest => String c (str_take n' rest)
  | _, _ => EmptyString
  end.

Fixpoint str_drop (n : nat) (s : string) : string :=
  match n, s with
  | S n', String _ rest => str_drop n' rest
  | _, _ => s
  end.

Definition str_len (s : string) : Z := Z.of_nat (String.length s).

(** [s[i]] for an index known to be in range, [None] otherwise. *)
Definition str_at (s : string) (i : nat) : option ascii := String.get i s.

Fixpoint str_repeat (c : ascii) (n : nat) : string :=
  match n with
  | O => EmptyString
  | S n' => String c (str_repeat c n')
  end.

(** ** Package time *)

Module time.

(** A [time.Time] without a monotonic reading: the instant, as seconds
    since January 1, 1970 UTC and nanoseconds within that second, and the
    offset (seconds east of UTC) its location has at that instant. *)
Record Time := { unixSec : Z; nsec : Z; offset : Z }.

Definition secondsPerMinute : Z := 60.
Definition secondsPerHour : Z := 60 * secondsPerMinute.
Definition secondsPerDay : Z := 24 * secondsPerHour.
Definition daysPer400Years : Z := 365 * 400 + 97.
Definition daysPer100Years : Z := 365 * 100 + 24.
Definition daysPer4Years : Z := 365 * 4 + 1.

Definition absoluteZeroYear : Z := -292277022399.
Definition internalYear : Z := 1.
Definition absoluteToInternal : Z :=
  (absoluteZeroYear - internalYear) * 3652425 / 10000 * secondsPerDay.
Definition internalToAbsolute : Z := - absoluteToInternal.
Definition unixToInternal : Z :=
  (1969 * 365 + 1969 / 4 - 1969 / 100 + 1969 / 400) * secondsPerDay.
Definition internalToUnix : Z := - unixToInternal.

(** The zero value [time.Time{}]: January 1, year 1, 00:00:00 UTC. *)
Definition zero : Time := {| unixSec := internalToUnix; nsec := 0; offset := 0 |}.

(** [t.abs()]: seconds since the absolute zero year, in the zone of [t],
    as a uint64. *)
Definition abs (t : Time) : Z :=
  wrap64 (unixSec t + offset t + (unixToInternal + internalToAbsolute)).

Definition isLeap (year : Z) : bool :=
  (Z.rem year 4 =? 0) && (negb (Z.rem year 100 =? 0) || (Z.rem year 400 =? 0)).

(** [daysBefore[m]]: days in a non-leap year before month [m+1]. *)
Definition daysBefore (m : Z) : Z :=
  nth (Z.to_nat m) [0; 31; 59; 90; 120; 151; 181; 212; 243; 273; 304; 334; 365] 0.

Definition February : Z := 2.
Definition March : Z := 3.

Definition daysIn (m year : Z) : Z :=
  if (m =? February) && isLeap year then 29
  else daysBefore m - daysBefore (m - 1).

(** [absDate(abs, false)]: the year and the day within the year. *)
Definition absDate_year (abs : Z) : Z * Z :=
  let d := abs / secondsPerDay in
  let n := d / daysPer400Years in
  let y := 400 * n in
  let d := d - daysPer400Years * n in
  let n := d / daysPer100Years in
  let n := n - Z.shiftr n 2 in
  let y := y + 100 * n in
  let d := d - daysPer100Years * n in
  let n := d / daysPer4Years in
  let y := y + 4 * n in
  let d := d - daysPer4Years * n in
  let n := d / 365 in
  let n := n - Z.shiftr n 2 in
  let y := y + n in
  let d := d - 365 * n in
  (y + absoluteZeroYear, d).

(** The second half of [absDate(abs, true)]: month and day of the month
    from the day of the year. *)
Definition absDate_month (leap : bool) (yday : Z) : Z * Z :=
  let day := yday in
  if leap && (day =? 31 + 29 - 1) then (February, 29)
  else
    let day := if leap && (31 + 29 - 1 <? day) then day - 1 else day in
    let month := day / 31 in
    let end_ := daysBefore (month + 1) in
    let '(month, begin) :=
      if end_ <=? day then (month + 1, end_) else (month, daysBefore month) in
    (month + 1, day - begin + 1).

Definition absDate (abs : Z) : Z * Z * Z :=
  let '(year, yday) := absDate_year abs in
  let '(month, day) := absDate_month (isLeap year) yday in
  (year, month, day).

(** [absClock(abs)] *)
Definition absClock (abs : Z) : Z * Z * Z :=
  let sec := abs mod secondsPerDay in
  let hour := sec / secondsPerHour in
  let sec := sec - hour * secondsPerHour in
  let min := sec / secondsPerMinute in
  let sec := sec - min * secondsPerMinute in
  (hour, min, sec).

(** [appendInt(b, x, width)], returning the appended bytes. *)
Definition appendInt (x : Z) (width : nat) : string :=
  let digits := fmt.fmtInteger_loop 20 (if x <? 0 then wrap64 (- x) else wrap64 x) EmptyString in
  let padded := str_repeat "0" (width - String.length digits) +:+ digits in
  if x <? 0 then String "-" padded else padded.

Fixpoint trim_zeros (n : nat) (buf : string) : nat :=
  match n with
  | O => O
  | S n' =>
    match str_at buf n' with
    | Some c => if byte c =? byte "0" then trim_zeros n' buf else n
    | None => n
    end
  end.

(** [formatNano(b, nanosec, 9, true)]: nine digits, trailing zeros and an
    empty fraction dropped. *)
Definition formatNano (nanosec : Z) : string :=
  let buf := appendInt nanosec 9 in
  let n := trim_zeros 9 buf in
  match n with
  | O => EmptyString
  | _ => String "." (str_take n buf)
  end.

(** The layout element [Z07:00] *)
Definition formatZone (offset : Z) : string :=
  if offset =? 0 then "Z"%string
  else
    let zone := Z.quot offset 60 in
    let sign := if zone <? 0 then "-"%string else "+"%string in
    let zone := if zone <? 0 then - zone else zone in
    sign +:+ appendInt (Z.quot zone 60) 2 +:+ ":" +:+ appendInt (Z.rem zone 60) 2.

(** [t.Format(time.RFC3339Nano)], layout
    [2006-01-02T15:04:05.999999999Z07:00]. *)
Definition Format_RFC3339Nano (t : Time) : string :=
  let a := abs t in
  let '(year, month, day) := absDate a in
  let '(hour, min, sec) := absClock a in
  appendInt year 4 +:+ "-" +:+ appendInt month 2 +:+ "-" +:+ appendInt day 2
    +:+ "T" +:+ appendInt hour 2 +:+ ":" +:+ appendInt min 2 +:+ ":" +:+ appendInt sec 2
    +:+ formatNano (nsec t) +:+ formatZone (offset t).

(** [daysSinceEpoch(year)] *)
Definition daysSinceEpoch (year : Z) : Z :=
  let y := wrap64 (year - absoluteZeroYear) in
  let n := y / 400 in
  let y := y - 400 * n in
  let d := daysPer400Years * n in
  let n := y / 100 in
  let y := y - 100 * n in
  let d := d + daysPer100Years * n in
  let n := y / 4 in
  let y := y - 4 * n in
  let d := d + daysPer4Years * n in
  let n := y in
  d + 365 * n.

(** [norm(hi, lo, base)] *)
Definition norm (hi lo base : Z) : Z * Z := (hi + lo / base, lo mod base).

(** [time.Date(year, month, day, hour, min, sec, nsec, time.UTC)] *)
Definition Date (year month day hour min sec nsec : Z) : Time :=
  let '(year, m) := norm year (month - 1) 12 in
  let month := m + 1 in
  let '(sec, nsec) := norm sec nsec (10 ^ 9) in
  let '(min, sec) := norm min sec 60 in
  let '(hour, min) := norm hour min 60 in
  let '(day, hour) := norm day hour 24 in
  let d := daysSinceEpoch year in
  let d := d + daysBefore (month - 1) in
  let d := if isLeap year && (March <=? month) then d + 1 else d in
  let d := d + (day - 1) in
  let a := d * secondsPerDay in
  let a := a + (hour * secondsPerHour + min * secondsPerMinute + sec) in
  let unix := a + (absoluteToInternal + internalToUnix) in
  {| unixSec := unix; nsec := nsec; offset := 0 |}.

(** The closure [parseUint] of [parseRFC3339]: an unsigned decimal field
    that must lie in [[min, max]]. *)
Fixpoint parseUint_digits (s : string) (x : Z) : option Z :=
  match s with
  | EmptyString => Some x
  | String c rest =>
    if is_digit c then parseUint_digits rest (x * 10 + byte c - byte "0")
    else None
  end.

Definition parseUint (s : string) (min max : Z) : option Z :=
  match parseUint_digits s 0 with
  | Some x => if (x <? min) || (max <? x) then None else Some x
  | None => None
  end.

Fixpoint count_digits (s : string) : nat :=
  match s with
  | String c rest => if is_digit c then S (count_digits rest) else O
  | EmptyString => O
  end.

(** [parseNanoseconds(value, nbytes)] for a [value] that starts with the
    period and has [nbytes - 1] digits after it. *)
Definition parseNanoseconds (value : string) (nbytes : nat) : Z :=
  let nbytes := Nat.min nbytes 10 in
  let value := str_take nbytes value in
  match parseUint_digits (str_drop 1 value) 0 with
  | Some ns => ns * 10 ^ Z.of_nat (10 - nbytes)
  | None => 0
  end.

Definition sep_ok (s : string) (i : nat) (c : ascii) : bool :=
  match str_at s i with
  | Some c' => byte c' =? byte c
  | None => false
  end.

(** The last part of [parseRFC3339], "Parse the time zone": [t] is the
    date and time read so far, taken in UTC, [s] what is left of the
    input. *)
Definition parseRFC3339_zone (t : Time) (s : string) : option Time :=
  if String.eqb s "Z" then Some t
  else if negb (String.length s =? 6)%nat then None
  else
    match parseUint (str_take 2 (str_drop 1 s)) 0 23,
          parseUint (str_take 2 (str_drop 4 s)) 0 59 with
    | Some hr, Some mm =>
      if negb ((sep_ok s 0 "-" || sep_ok s 0 "+") && sep_ok s 3 ":") then None
      else
        let zoneOffset := (hr * 60 + mm) * 60 in
        let zoneOffset := if sep_ok s 0 "-" then - zoneOffset else zoneOffset in
        Some {| unixSec := unixSec t - zoneOffset; nsec := nsec t; offset := zoneOffset |}
    | _, _ => None
    end.

(** The middle part of [parseRFC3339], "Parse the fractional second",
    followed by the call of [Date]. *)
Definition parseRFC3339_frac (year month day hour min sec : Z) (s : string) : option Time :=
  let '(ns, s) :=
    match s with
    | String c0 (String c1 rest) =>
      if (byte c0 =? byte ".") && is_digit c1 then
        let n := (2 + count_digits rest)%nat in
        (parseNanoseconds s n, str_drop n s)
      else (0, s)
    | _ => (0, s)
    end in
  parseRFC3339_zone (Date year month day hour min sec ns) s.

(** [parseRFC3339(s, local)]: the parser [time.Parse] uses for the layouts
    RFC3339 and RFC3339Nano.  [None] stands for a parse error.  (An input
    this parser declines is passed by the library to its general layout
    parser, which accepts a few non-canonical spellings, such as a
    one-digit hour; those are errors here.) *)
Definition parseRFC3339 (s : string) : option Time :=
  if (String.length s <? 19)%nat then None
  else
    match parseUint (str_take 4 s) 0 9999,
          parseUint (str_take 2 (str_drop 5 s)) 1 12 with
    | Some year, Some month =>
      match parseUint (str_take 2 (str_drop 8 s)) 1 (daysIn month year),
            parseUint (str_take 2 (str_drop 11 s)) 0 23,
            parseUint (str_take 2 (str_drop 14 s)) 0 59,
            parseUint (str_take 2 (str_drop 17 s)) 0 59 with
      | Some day, Some hour, Some min, Some sec =>
        if negb (sep_ok s 4 "-" && sep_ok s 7 "-" && sep_ok s 10 "T"
                 && sep_ok s 13 ":" && sep_ok s 16 ":")
        then None
        else parseRFC3339_frac year month day hour min sec (str_drop 19 s)
      | _, _, _, _ => None
      end
    | _, _ => None
    end.

(** [*time.ParseError] *)
Record ParseError := { Layout : string; Value : string }.

Definition RFC3339Nano : string := "2006-01-02T15:04:05.999999999Z07:00".

(** [time.Parse(time.RFC3339Nano, value)].  Every error return of the
    library carries the zero [Time]. *)
Definition Parse_RFC3339Nano (value : string) : Time * option ParseError :=
  match parseRFC3339 value with
  | Some t => (t, None)
  | None => (zero, Some {| Layout := RFC3339Nano; Value := value |})
  end.

End time.

(** ** Package strings *)

Fixpoint strings_HasPrefix (s prefix : string) : bool :=
  match prefix, s with
  | EmptyString, _ => true
  | String p prefix', String c s' => (byte c =? byte p) && strings_HasPrefix s' prefix'
  | String _ _, EmptyString => false
  end.

Fixpoint strings_Contains (s substr : string) : bool :=
  strings_HasPrefix s substr
  || match s with
     | String _ rest => strings_Contains rest substr
     | EmptyString => false
     end.

(** Leftmost, non-overlapping replacement of a non-empty literal [old];
    [skip] counts the bytes of a match still to be passed over. *)
Fixpoint replace_literal (old new s : string) (skip : nat) : string :=
  match s with
  | EmptyString => EmptyString
  | String c rest =>
    match skip with
    | S k => replace_literal old new rest k
    | O =>
      if strings_HasPrefix s old
      then new +:+ replace_literal old new rest (String.length old - 1)
      else String c (replace_literal old new rest O)
    end
  end.

(** [strings.ReplaceAll(s, old, new)] for a non-empty [old] *)
Definition strings_ReplaceAll (s old new : string) : string :=
  replace_literal old new s O.

(** [strings.Split(s, sep)] for a one-byte separator *)
Fixpoint strings_Split (s : string) (sep : ascii) : list string :=
  match s with
  | EmptyString => [EmptyString]
  | String c rest =>
    if byte c =? byte sep then EmptyString :: strings_Split rest sep
    else
      match strings_Split rest sep with
      | first :: others => String c first :: others
      | [] => [String c EmptyString]
      end
  end.

Definition TAB : ascii := ascii_of_nat 9.
Definition LF : ascii := ascii_of_nat 10.
Definition CR : ascii := ascii_of_nat 13.

(** ** Values, errors, panics and the trace of effects *)

(** A Go value of dynamic type, as the driver hands it over in an
    [interface{}]; [VFloat64] carries the IEEE 754 bits, [VOther] any
    dynamic type the decoder has no case for, by its [reflect] name. *)
Inductive value :=
| VNil
| VInt64 (n : Z)
| VFloat64 (bits : Z)
| VString (s : string)
| VBytes (b : string)
| VBool (b : bool)
| VTime (t : time.Time)
| VOther (typeName : string).

(** Go [error] values.  The sentinels are compared by identity in the
    source; every other error is identified with its message. *)
Inductive error :=
| ErrNoRows
| ErrTxDone
| errListenerClosed
| errorString (msg : string).

(** [err.Error()] *)
Definition Error (e : error) : string :=
  match e with
  | ErrNoRows => "sql: no rows in result set"
  | ErrTxDone => "sql: transaction has already been committed or rolled back"
  | errListenerClosed => "pq: Listener has been closed"
  | errorString msg => msg
  end.

Inductive fmt_arg :=
| ArgString (s : string)
| ArgError (e : error)
| ArgNumError (e : strconv.NumError)
| ArgParseError (e : time.ParseError)
| ArgEstimated.

(** Modelled from the spec: the loggers of the package ([Errorf], [Infof],
    [EstimatedPrint], [logNone] and the value [Estimated] prints) are
    declared outside postgres.go; the spec describes them as diagnostic log
    output.  A call of one of them is recorded with its format and
    arguments and has no other effect.  The same trace records, in order,
    what reaches the driver. *)
Inductive event :=
| Errorf (format : string) (args : list fmt_arg)
| Infof (format : string) (args : list fmt_arg)
| EstimatedPrint (label : string)
| logNone_Printf (format : string) (args : list fmt_arg)
| logNone_Println (line : string)
| tx_QueryContext (query : string) (args : list value)
| tx_ExecContext (query : string) (args : list value)
| rows_Close.

Inductive panic_value :=
| NilDereference
| TypeAssertion (v : value) (wanted : string)
| IndexOutOfRange
| CloseOfClosedChannel
| SendOnClosedChannel
| Deadlock.

(** How a call ends: it returns, or it panics.  A panic raised by a deferred
    call while another panic unwinds is added to the chain. *)
Inductive outcome (A : Type) :=
| Returns (a : A)
| Panics (ps : list panic_value).
Arguments Returns {A} a.
Arguments Panics {A} ps.

Record M (A : Type) := Run { result : outcome A; trace : list event }.
Arguments Run {A} result trace.
Arguments result {A} m.
Arguments trace {A} m.

#[global] Instance M_ret : MRet M := fun A a => Run (Returns a) [].
#[global] Instance M_bind : MBind M := fun A B f m =>
  match result m with
  | Returns a => Run (result (f a)) (trace m ++ trace (f a))
  | Panics ps => Run (Panics ps) (trace m)
  end.

Definition emit (e : event) : M unit := Run (Returns tt) [e].
Definition emit_all (es : list event) : M unit := Run (Returns tt) es.
Definition panic {A} (p : panic_value) : M A := Run (Panics [p]) [].

(** [defer d; body]: [d] runs when [body] is left, also when it panics. *)
Definition with_defer {A} (d : M unit) (body : M A) : M A :=
  Run (match result body, result d with
       | Returns a, Returns _ => Returns a
       | Returns _, Panics ps => Panics ps
       | Panics ps, Returns _ => Panics ps
       | Panics ps, Panics ps' => Panics (ps ++ ps')
       end)
      (trace body ++ trace d).

(** [fmt.Errorf(prefix + "%s", err)] *)
Definition fmt_Errorf (msg : string) : error := errorString msg.

(** ** Library functions taken as parameters

    64-bit floating-point formatting and parsing, and the expansion of a
    [regexp] replacement template that contains a dollar sign, are not
    modelled: the development holds for every such function. *)
Class Library := {
  (** [fmt.Sprint(f)] for [f] of type float64, given by its bits *)
  Sprint_float64 : Z -> string;
  (** [strconv.ParseFloat(s, 64)] *)
  ParseFloat : string -> Z * option strconv.NumError;
  (** [Regexp.expand]: the text a template with [$] stands for at a match *)
  regexp_expand : string -> string -> string
}.

(** ** Package database/sql, by what its handles answer *)

Module sql.

(** What [Rows.Scan] delivers for one row. *)
Inductive scan_outcome :=
| Scanned (vals : list value)
| ScanFails (e : error).

(** A cursor [*sql.Rows]: the answer of [Columns], the row [Next] last
    moved to, and the rows still to come. *)
Record Rows := {
  columns : list string + error;
  current : option scan_outcome;
  pending : list scan_outcome
}.

(** [rows.Next()] *)
Definition Next (rows : Rows) : bool * Rows :=
  match pending rows with
  | [] => (false, {| columns := columns rows; current := None; pending := [] |})
  | r :: rest => (true, {| columns := columns rows; current := Some r; pending := rest |})
  end.

(** [rows.Columns()] *)
Definition Columns (rows : Rows) : list string + error := columns rows.

(** [rows.Scan(dest...)] with [n] destinations of type [*interface{}] *)
Definition Scan (rows : Rows) (n : nat) : list value + error :=
  match current rows with
  | None => inr (errorString "sql: Scan called without calling Next")
  | Some (ScanFails e) => inr e
  | Some (Scanned vals) =>
    if (length vals =? n)%nat then inl vals
    else inr (errorString "sql: wrong number of destination arguments in Scan")
  end.

Inductive Context :=
| Background
| Cancelled (err : error).

(** A transaction [*sql.Tx]: whether it is finished, and what the driver
    answers to each request. *)
Record Tx := {
  done : bool;
  query_answer : Context -> string -> list value -> Rows + error;
  exec_answer : Context -> string -> list value -> option error;
  commit_answer : option error;
  rollback_answer : option error
}.

Definition finish (tx : Tx) : Tx :=
  {| done := true; query_answer := query_answer tx; exec_answer := exec_answer tx;
     commit_answer := commit_answer tx; rollback_answer := rollback_answer tx |}.

(** [tx.QueryContext(ctx, query, args...)] *)
Definition QueryContext (tx : Tx) (ctx : Context) (query : string) (args : list value)
  : Rows + error :=
  if done tx then inr ErrTxDone else query_answer tx ctx query args.

(** [tx.ExecContext(ctx, query, args...)], the [sql.Result] left out *)
Definition ExecContext (tx : Tx) (ctx : Context) (query : string) (args : list value)
  : option error :=
  if done tx then Some ErrTxDone else exec_answer tx ctx query args.

(** [tx.Commit()] *)
Definition Commit (tx : Tx) : Tx * option error :=
  if done tx then (tx, Some ErrTxDone) else (finish tx, commit_answer tx).

(** [tx.Rollback()] *)
Definition Rollback (tx : Tx) : Tx * option error :=
  if done tx then (tx, Some ErrTxDone) else (finish tx, rollback_answer tx).

(** A pool [*sql.DB], by what [BeginTx] answers. *)
Record DB := { BeginTx : Context -> Tx + error }.

End sql.

(** ** Package github.com/lib/pq: the listener handle *)

Module pq.

Inductive ListenerEventType :=
| ListenerEventConnected
| ListenerEventDisconnected
| ListenerEventReconnected
| ListenerEventConnectionAttemptFailed.

(** A [*pq.Listener]: whether it was closed, and what the server answers
    to a subscription and to a ping. *)
Record Listener := {
  isClosed : bool;
  listen_answer : string -> option error;
  ping_answer : option error
}.

(** [pq.NewListener(...)]: a listener that is not closed *)
Definition NewListener (listen_answer : string -> option error)
           (ping_answer : option error) : Listener :=
  {| isClosed := false; listen_answer := listen_answer; ping_answer := ping_answer |}.

(** [l.Close()] *)
Definition Close (l : Listener) : Listener * option error :=
  if isClosed l then (l, Some errListenerClosed)
  else ({| isClosed := true; listen_answer := listen_answer l;
           ping_answer := ping_answer l |}, None).

(** [l.Listen(channel)] *)
Definition Listen (l : Listener) (channel : string) : option error :=
  if isClosed l then Some errListenerClosed else listen_answer l channel.

(** [l.Ping()] *)
Definition Ping (l : Listener) : option error :=
  if isClosed l then Some errListenerClosed else ping_answer l.

End pq.

(** A buffered Go channel of [error] values. *)
Record chan := { cap : nat; buf : list (option error); chan_closed : bool }.

Definition make_chan (n : nat) : chan := {| cap := n; buf := []; chan_closed := false |}.

(** [close(c)] *)
Definition chan_close (c : chan) : outcome chan :=
  if chan_closed c then Panics [CloseOfClosedChannel]
  else Returns {| cap := cap c; buf := buf c; chan_closed := true |}.

(** [c <- v], for a channel with room in its buffer *)
Definition chan_send (c : chan) (v : option error) : outcome chan :=
  if chan_closed c then Panics [SendOnClosedChannel]
  else Returns {| cap := cap c; buf := buf c ++ [v]; chan_closed := chan_closed c |}.

(** [<-c], for a channel that holds a value *)
Definition chan_recv (c : chan) : option (option error * chan) :=
  match buf c with
  | v :: rest => Some (v, {| cap := cap c; buf := rest; chan_closed := chan_closed c |})
  | [] => None
  end.

(** ** Package daas *)

Definition PGHOST : string := "DAAS_HOST".
Definition PGPORT : string := "DAAS_PORT".
Definition PGUSER : string := "DAAS_USER".
Definition PGPASSWORD : string := "DAAS_PASS".
Definition PGDATABASE : string := "DAAS_DBNAME".
Definition PGLIFETIME : string := "DAAS_LIFETIME".
Definition PGMAXIDLE : string := "DAAS_MAXIDLE".
Definition PGMAXCONN : string := "DAAS_MAXCONN".

(** The process environment, as [os.Getenv] reads it. *)
Definition environ := string -> string.

(** The local [sslmode] of [getDSN] *)
Definition getDSN_sslmode (Getenv : environ) : string :=
  if strings_Contains (Getenv PGHOST) "localhost" then "disable" else "require".

Definition getDSN (Getenv : environ) (appName : string) : string :=
  let sslmode := getDSN_sslmode Getenv in
  "host=" +:+ Getenv PGHOST +:+ " port=" +:+ Getenv PGPORT
    +:+ " user=" +:+ Getenv PGUSER +:+ " password=" +:+ Getenv PGPASSWORD
    +:+ " dbname=" +:+ Getenv PGDATABASE +:+ " sslmode=" +:+ sslmode
    +:+ " application_name='" +:+ appName +:+ "'".

Record PGClient := { DB : option sql.DB; client_ctx : option sql.Context }.

(** [PGRow] is [map[string]string]; [None] is the nil map. *)
Definition PGRow := option (gmap string string).
Definition PGRecord := list PGRow.

(** Modelled from the spec: [SubSet] is declared outside postgres.go;
    [FetchOneColumn] returns an ordered sequence of strings. *)
Definition SubSet := list string.

Record PGTx := { Closed : bool; tx : option sql.Tx; ctx : option sql.Context }.

Record PGNotify := { ln : pq.Listener; fail : chan }.

(** [pg[name]]: the zero value for a missing key and for the nil map *)
Definition PGRow_index (pg : PGRow) (name : string) : string :=
  match pg with
  | Some m => default EmptyString (m !! name)
  | None => EmptyString
  end.

Definition PGNotify_Ping (pg : PGNotify) : option error := pq.Ping (ln pg).

(** [CreateChannel], for a server that answers subscriptions and pings as
    given and for the first event [(e, err)] the new listener reports: the
    callback sends on [fail], the creator receives it. *)
Definition PGClient_CreateChannel (Getenv : environ) (appTitle : string)
           (listen_answer : string -> option error) (ping_answer : option error)
           (e : pq.ListenerEventType) (err : option error)
  : M (PGNotify * option error) :=
  let n_fail := make_chan 2 in
  let n_ln := pq.NewListener listen_answer ping_answer in
  _ ← match err with
      | Some err' => emit (Errorf "Listen:: %s" [ArgError err'])
      | None => mret tt
      end;
  let sent :=
    match e with
    | pq.ListenerEventConnectionAttemptFailed => chan_send n_fail err
    | _ => chan_send n_fail None
    end in
  match sent with
  | Panics ps => Run (Panics ps) []
  | Returns c =>
    match chan_recv c with
    | None => panic Deadlock
    | Some (err, c') =>
      _ ← emit (Infof "'listen::%s/%s' Consumed"
                      [ArgString (Getenv PGHOST); ArgString (Getenv PGDATABASE)]);
      mret ({| ln := n_ln; fail := c' |}, err)
    end
  end.

(** The synchronous part of [Listen]; on success the source then starts the
    goroutine that serves notifications, which is outside this model. *)
Definition PGNotify_Listen (pg : PGNotify) (channelName : string)
  : PGNotify * M (option error) :=
  match pq.Listen (ln pg) channelName with
  | Some err =>
    ({| ln := fst (pq.Close (ln pg)); fail := fail pg |},
     _ ← emit (Infof "LISTEN channel '%s'" [ArgString channelName]); mret (Some err))
  | None =>
    (pg, _ ← emit (Infof "LISTEN channel '%s'" [ArgString channelName]); mret None)
  end.

(** [Close]: the handle after the call, and how the call ends. *)
Definition PGNotify_Close (pg : PGNotify) : PGNotify * outcome (option error) :=
  match chan_close (fail pg) with
  | Panics ps => (pg, Panics ps)
  | Returns c =>
    let '(l, err) := pq.Close (ln pg) in
    ({| ln := l; fail := c |}, Returns err)
  end.

Section Daas.

Context `{Library}.

Definition PGRow_ToByte (pg : PGRow) (name : string) : string := PGRow_index pg name.

Definition PGRow_ToBoolean (pg : PGRow) (name : string) : M bool :=
  let '(data, err) := strconv.ParseBool (PGRow_index pg name) in
  _ ← match err with
      | Some err => emit (Errorf "PGRow.ToBoolean('%s'): %s" [ArgString name; ArgNumError err])
      | None => mret tt
      end;
  mret data.

Definition PGRow_ToInt64 (pg : PGRow) (name : string) : M Z :=
  let '(data, err) := strconv.ParseInt (PGRow_index pg name) 0 64 in
  _ ← match err with
      | Some err => emit (Errorf "PGRow.ToInt64('%s', 0, 64): %s" [ArgString name; ArgNumError err])
      | None => mret tt
      end;
  mret data.


Definition PGRow_ToTime (pg : PGRow) (name : string) : M time.Time :=
  let '(data, err) := time.Parse_RFC3339Nano (PGRow_index pg name) in
  _ ← match err with
      | Some err => emit (Errorf "PGRow.ToTime('%s'): %s" [ArgString name; ArgParseError err])
      | None => mret tt
      end;
  mret data.

(** [Begin]: [BeginTx] answers a transaction or an error; the scope is
    built around whatever came back. *)
Definition PGClient_Begin (pg : PGClient) : M (option PGTx * option error) :=
  match client_ctx pg, DB pg with
  | Some c, Some db =>
    let '(stx, err) :=
      match sql.BeginTx db c with
      | inl t => (Some t, None)
      | inr e => (None, Some e)
      end in
    let pgx := {| Closed := false; tx := stx; ctx := client_ctx pg |} in
    mret (Some pgx, err)
  | _, _ => panic NilDereference
  end.

(** [Commit]: the scope after the call, and how the call ends. *)
Definition PGTx_Commit (stx : PGTx) : PGTx * outcome (option error) :=
  let stx := {| Closed := true; tx := tx stx; ctx := ctx stx |} in
  match tx stx with
  | None => (stx, Panics [NilDereference])
  | Some t =>
    let '(t', err) := sql.Commit t in
    ({| Closed := Closed stx; tx := Some t'; ctx := ctx stx |}, Returns err)
  end.

Definition PGTx_Rollback (stx : PGTx) : PGTx * outcome (option error) :=
  let stx := {| Closed := true; tx := tx stx; ctx := ctx stx |} in
  match tx stx with
  | None => (stx, Panics [NilDereference])
  | Some t =>
    let '(t', err) := sql.Rollback t in
    ({| Closed := Closed stx; tx := Some t'; ctx := ctx stx |}, Returns err)
  end.

(** The decoding [switch] of [fetchRow]: the text stored for one value,
    and what is logged for it. *)
Definition decode (val : value) : string * list event :=
  match val with
  | VNil => (EmptyString, [])
  | VInt64 n => (fmt.Sprint_int64 n, [])
  | VFloat64 f => (Sprint_float64 f, [])
  | VString s => (s, [])
  | VBytes b => (b, [])
  | VBool b => (fmt.Sprintf_t b, [])
  | VTime t => (time.Format_RFC3339Nano t, [])
  | VOther ty => (EmptyString, [Errorf "Reflect TypeOf: %s " [ArgString ty]])
  end.

(** [for i, val := range values]: [columns] is what is left of the
    column names from index [i] on. *)
Fixpoint fetchRow_loop (columns : list string) (values : list value)
         (resultMap : gmap string string) : M (gmap string string) :=
  match values with
  | [] => mret resultMap
  | val :: values' =>
    match columns with
    | [] => panic IndexOutOfRange
    | column :: columns' =>
      _ ← emit_all (snd (decode val));
      fetchRow_loop columns' values' (<[column := fst (decode val)]> resultMap)
    end
  end.

Definition fetchRow (rows : sql.Rows) : M (PGRow * option error) :=
  match sql.Columns rows with
  | inr err => mret (None, Some (fmt_Errorf ("FetchRow::Columns::" +:+ Error err)))
  | inl columns =>
    let resultMap : gmap string string := ∅ in
    match sql.Scan rows (length columns) with
    | inr ErrNoRows =>
      mret (Some resultMap, Some (fmt_Errorf ("FetchRow::ErrNoRows: " +:+ Error ErrNoRows)))
    | inr err => mret (None, Some (fmt_Errorf ("FetchRow::Scan: " +:+ Error err)))
    | inl values =>
      resultMap ← fetchRow_loop columns values resultMap;
      mret (Some resultMap, None)
    end
  end.

Definition PGTx_FetchRow (stx : PGTx) (rows : sql.Rows) : M (PGRow * option error) :=
  fetchRow rows.

(** [for rows.Next() { ... }] of [FetchAll]: [todo] is [pending rows]. *)
Fixpoint FetchAll_loop (stx : PGTx) (cols : list string + error)
         (todo : list sql.scan_outcome) (result : PGRecord)
  : M (PGRecord * option error) :=
  match todo with
  | [] => mret (result, None)
  | r :: rest =>
    '(data, err) ← PGTx_FetchRow stx
        {| sql.columns := cols; sql.current := Some r; sql.pending := rest |};
    match err with
    | Some _ => mret ([], None)
    | None => FetchAll_loop stx cols rest (result ++ [data])
    end
  end.

Definition PGTx_FetchAll (stx : PGTx) (rows : sql.Rows) : M (PGRecord * option error) :=
  FetchAll_loop stx (sql.columns rows) (sql.pending rows) [].

Fixpoint FetchOneColumn_loop (stx : PGTx) (cols : list string + error)
         (todo : list sql.scan_outcome) (columnName : string) (result : SubSet)
  : M (SubSet * option error) :=
  match todo with
  | [] => mret (result, None)
  | r :: rest =>
    '(data, err) ← PGTx_FetchRow stx
        {| sql.columns := cols; sql.current := Some r; sql.pending := rest |};
    match err with
    | Some _ => mret ([], None)
    | None => FetchOneColumn_loop stx cols rest columnName
                (result ++ [PGRow_index data columnName])
    end
  end.

Definition PGTx_FetchOneColumn (stx : PGTx) (rows : sql.Rows) (columnName : string)
  : M (SubSet * option error) :=
  FetchOneColumn_loop stx (sql.columns rows) (sql.pending rows) columnName [].


Fixpoint leadingSpace (line : string) : Z :=
  match line with
  | String v rest =>
    if (byte v =? byte " ") || (byte v =? byte TAB) then 1 + leadingSpace rest else 0
  | EmptyString => 0
  end.

(** [regexp.MustCompile(`\$N`).ReplaceAllString(src, repl)]: the pattern
    is the literal text [lit]; a template without a dollar sign stands
    for itself. *)
Definition regexp_ReplaceAllString (lit src repl : string) : string :=
  let expansion := if strings_Contains repl "$" then regexp_expand repl lit else repl in
  replace_literal lit expansion src O.

(** The first loop of [sqlQuery]: [i] is the index of the head of [args]. *)
Fixpoint sqlQuery_substitute (i : nat) (args : list value) (query : string) : M string :=
  match args with
  | [] => mret query
  | arg :: args' =>
    let rgx := ("$" +:+ fmt.Sprint_int64 (Z.of_nat i + 1))%string in
    match arg with
    | VString a =>
      sqlQuery_substitute (S i) args'
        (regexp_ReplaceAllString rgx query ("'" +:+ a +:+ "'"))
    | _ => panic (TypeAssertion arg "string")
    end
  end.

(** The second loop of [sqlQuery], over the lines of the query. *)
Fixpoint sqlQuery_lines (i : nat) (lead : Z) (lines : list string) : list event :=
  match lines with
  | [] => []
  | line :: lines' =>
    let lead := if (i <? 2)%nat && (lead =? 0) then leadingSpace line else lead in
    let line :=
      if (lead <? str_len line) && (1 <? lead)
      then str_drop (Z.to_nat (lead - 2)) line else line in
    logNone_Println (strings_ReplaceAll line (String TAB "") "  ")
      :: sqlQuery_lines (S i) lead lines'
  end.

Definition sqlQuery (query : string) (args : list value) : M unit :=
  query ← sqlQuery_substitute O args query;
  _ ← emit (logNone_Printf ("[Query]" +:+ String LF "") []);
  _ ← emit_all (sqlQuery_lines O 0
         (strings_Split (strings_ReplaceAll query (String CR (String LF "")) (String LF ""))
                        LF));
  _ ← emit (logNone_Printf (String LF "Elapsed time %d ms estimated.") [ArgEstimated]);
  emit (logNone_Printf (String LF "[Query]") []).

Definition sctxQuery (pgstx : option sql.Tx) (pgctx : option sql.Context) (envDebug : bool)
           (query : string) (args : list value) : M (option sql.Rows * option error) :=
  with_defer (if envDebug then sqlQuery query args else mret tt)
    (with_defer (emit (EstimatedPrint "Query"))
       match pgctx, pgstx with
       | Some c, Some t =>
         _ ← emit (tx_QueryContext query args);
         match sql.QueryContext t c query args with
         | inr err => mret (None, Some err)
         | inl rows => mret (Some rows, None)
         end
       | _, _ => panic NilDereference
       end).

Definition sctxExecute (pgstx : option sql.Tx) (pgctx : option sql.Context) (envDebug : bool)
           (query : string) (args : list value) : M (option error) :=
  with_defer (if envDebug then sqlQuery query args else mret tt)
    (with_defer (emit (EstimatedPrint "Execute"))
       match pgctx, pgstx with
       | Some c, Some t =>
         _ ← emit (tx_ExecContext query args);
         match sql.ExecContext t c query args with
         | Some err => mret (Some err)
         | None => mret None
         end
       | _, _ => panic NilDereference
       end).

(** The body shared by [QueryOne] and [QueryOnePrint] after [sctxQuery]. *)
Definition QueryOne_rest (r : option sql.Rows * option error) : M (PGRow * option error) :=
  let '(rows, err) := r in
  match err with
  | Some err => mret (None, Some (fmt_Errorf ("QueryOne::" +:+ Error err)))
  | None =>
    match rows with
    | None => panic NilDereference
    | Some rows =>
      let '(more, rows) := sql.Next rows in
      if negb more then mret (None, Some (fmt_Errorf "empty record"))
      else with_defer (emit rows_Close) (fetchRow rows)
    end
  end.

Definition PGTx_QueryOne (stx : PGTx) (query : string) (args : list value)
  : M (PGRow * option error) :=
  r ← sctxQuery (tx stx) (ctx stx) false query args;
  QueryOne_rest r.

Definition PGTx_QueryOnePrint (stx : PGTx) (query : string) (args : list value)
  : M (PGRow * option error) :=
  r ← sctxQuery (tx stx) (ctx stx) true query args;
  QueryOne_rest r.

Definition PGTx_Query (stx : PGTx) (query : string) (args : list value) :=
  sctxQuery (tx stx) (ctx stx) false query args.

Definition PGTx_QueryPrint (stx : PGTx) (query : string) (args : list value) :=
  sctxQuery (tx stx) (ctx stx) true query args.

Definition PGTx_Execute (stx : PGTx) (query : string) (args : list value) :=
  sctxExecute (tx stx) (ctx stx) false query args.

Definition PGTx_ExecutePrint (stx : PGTx) (query : string) (args : list value) :=
  sctxExecute (tx stx) (ctx stx) true query args.





End Daas.


Definition is_driver_request (e : event) : bool :=
  match e with
  | tx_QueryContext _ _ | tx_ExecContext _ _ => true
  | _ => false
  end.

Definition is_string_value (v : value) : bool :=
  match v with
  | VString _ => true
  | _ => false
  end.

(** ** [Connect]: opening and sizing the pool *)

(** An int64 result of Go arithmetic: the value reduced into the signed
    64-bit range. *)
Definition wrap_int64 (z : Z) : Z := (z + 2 ^ 63) mod 2 ^ 64 - 2 ^ 63.

(** [time.Second], a [time.Duration] in nanoseconds *)
Definition time_Second : Z := 1000000000.

(** The pool [sql.Open] hands out, by what it answers: the handle [Begin]
    uses, and the answer of [PingContext]. *)
Record pool := {
  pool_DB : sql.DB;
  PingContext_answer : sql.Context -> option error
}.

(** The calls [Connect] makes on the pool, with their arguments. *)
Inductive pool_call :=
| SetConnMaxLifetime (d : Z)
| SetMaxIdleConns (n : Z)
| SetMaxOpenConns (n : Z)
| PingContext (c : sql.Context).

(** Modelled from the spec: [Fatal] is declared outside postgres.go.  The
    spec calls what [Connect] reports through it fatal to process startup
    (the process cannot proceed, no recovery is attempted): the call
    reports its arguments and the process ends there. *)
Inductive startup (A : Type) :=
| Proceeds (a : A)
| Fatal (label : string) (err : fmt_arg)
| StartupPanics (p : panic_value).
Arguments Proceeds {A} a.
Arguments Fatal {A} label err.
Arguments StartupPanics {A} p.

(** How a call of [Connect] ends, the calls it made on the pool, in order,
    and what it logged. *)
Record connect_run := {
  startup_result : startup PGClient;
  pool_calls : list pool_call;
  connect_log : list event
}.

(** The block of [Connect] guarded by [os.Getenv(PGLIFETIME) != ""]: the
    three setters it ends with, or the [Fatal] it stops at. *)
Definition Connect_settings (Getenv : environ)
  : list pool_call + string * strconv.NumError :=
  if negb (String.eqb (Getenv PGLIFETIME) "") then
    let '(lifeTimeSecond, err) := strconv.ParseInt (Getenv PGLIFETIME) 0 64 in
    match err with
    | Some err => inr ("ENV::PGLIFETIME ParseInt"%string, err)
    | None =>
      let '(maxIdle, err) := strconv.ParseInt (Getenv PGMAXIDLE) 0 32 in
      match err with
      | Some err => inr ("ENV::PGMAXIDLE ParseInt"%string, err)
      | None =>
        let '(maxConn, err) := strconv.ParseInt (Getenv PGMAXCONN) 0 32 in
        match err with
        | Some err => inr ("ENV::PGMAXCONN ParseInt"%string, err)
        | None =>
          inl [SetConnMaxLifetime (wrap_int64 (time_Second * lifeTimeSecond));
               SetMaxIdleConns maxIdle;
               SetMaxOpenConns maxConn]
        end
      end
    end
  else inl [].

(** [Connect], for a [sql.Open] that answers as given. *)
Definition PGClient_Connect (Getenv : environ) (sql_Open : string -> string -> pool + error)
           (c : option sql.Context) (appTitle : string) : connect_run :=
  match sql_Open "postgres"%string (getDSN Getenv appTitle) with
  | inr err =>
    {| startup_result := Fatal "Postgres:: Open" (ArgError err);
       pool_calls := []; connect_log := [] |}
  | inl db =>
    match Connect_settings Getenv with
    | inr (label, err) =>
      {| startup_result := Fatal label (ArgNumError err);
         pool_calls := []; connect_log := [] |}
    | inl settings =>
      match c with
      | None =>
        {| startup_result := StartupPanics NilDereference;
           pool_calls := settings; connect_log := [] |}
      | Some ctx =>
        match PingContext_answer db ctx with
        | Some err =>
          {| startup_result := Fatal "Postgres:: PingContext" (ArgError err);
             pool_calls := settings ++ [PingContext ctx]; connect_log := [] |}
        | None =>
          {| startup_result := Proceeds {| DB := Some (pool_DB db); client_ctx := c |};
             pool_calls := settings ++ [PingContext ctx];
             connect_log := [Infof "'query::%s/%s' Connected "
                                   [ArgString (Getenv PGHOST); ArgString (Getenv PGDATABASE)]] |}
        end
      end
    end
  end.

(** ** The event callback of [CreateChannel] *)

(** How a send on a buffered channel goes while nothing receives from it. *)
Inductive send_outcome :=
| Sent (c : chan)
| SendBlocks
| SendPanics (p : panic_value).

(** [c <- v] while nothing receives from [c] *)
Definition chan_send_unreceived (c : chan) (v : option error) : send_outcome :=
  if chan_closed c then SendPanics SendOnClosedChannel
  else if (length (buf c) <? cap c)%nat
       then Sent {| cap := cap c; buf := buf c ++ [v]; chan_closed := chan_closed c |}
       else SendBlocks.

(** The function [CreateChannel] hands to [pq.NewListener], which the
    listener calls at each of its events: what it logs, and how its send
    on the signal channel, in state [c], goes. *)
Definition CreateChannel_callback (c : chan) (e : pq.ListenerEventType) (err : option error)
  : list event * send_outcome :=
  (match err with
   | Some err' => [Errorf "Listen:: %s" [ArgError err']]
   | None => []
   end,
   match e with
   | pq.ListenerEventConnectionAttemptFailed => chan_send_unreceived c err
   | _ => chan_send_unreceived c None
   end).

(** ** Definitions used in the statements below *)

(** The local times [0000-01-01T00:00:00] and [10000-01-01T00:00:00], in
    seconds since January 1, 1970. *)
Definition minLocal : Z := -62167219200.
Definition maxLocal : Z := 253402300800.

(** The cutoff and the largest value of [ParseUint] in base 10 at 64 bits. *)
Definition cutoff10 : Z := strconv.maxUint64 / 10 + 1.
Definition maxVal64 : Z := wrap64 (wrap64 (Z.shiftl 1 64) - 1).

(** [absDate_month] gives a month, a day of that month, and the day of the
    year they stand for. *)
Definition month_ok (leap : bool) (yday : Z) : bool :=
  let '(m, dd) := time.absDate_month leap yday in
  (1 <=? m) && (m <=? 12) && (1 <=? dd)
  && (dd <=? (if (m =? time.February) && leap then 29
              else time.daysBefore m - time.daysBefore (m - 1)))
  && (time.daysBefore (m - 1) + (if leap && (time.March <=? m) then 1 else 0) + dd - 1 =? yday).

(** What follows the fraction in a formatted time starts with a byte that
    is neither a digit nor a period. *)
Definition zone_head (z : string) : Prop :=
  exists zc z', z = String zc z' /\ is_digit zc = false /\ (byte zc =? byte ".") = false.

Section Decoded.

Context `{Library}.

(** The map [fetchRow] builds from the columns and values of one row. *)
Definition decoded (columns : list string) (values : list value)
           (m : gmap string string) : gmap string string :=
  foldl (fun acc cv => <[cv.1 := fst (decode cv.2)]> acc) m (zip columns values).

(** What [fetchRow] logs for the values of one row. *)
Definition decode_log (values : list value) : list event :=
  flat_map (fun v => snd (decode v)) values.

(** The row [fetchRow] returns for one scanned row of the cursor. *)
Definition decoded_row (columns : list string) (r : sql.scan_outcome) : PGRow :=
  match r with
  | sql.Scanned values => Some (decoded columns values ∅)
  | sql.ScanFails _ => None
  end.

End Decoded.

(** A library with constant answers, for statements at concrete inputs
    that reach none of its functions. *)
Definition plain_library : Library :=
  {| Sprint_float64 := fun _ => EmptyString;
     ParseFloat := fun _ => (0, None);
     regexp_expand := fun template _ => template |}.

(** A cursor that [Next] has moved to a row with the given values. *)
Definition cursor_at (cols : list string) (vals : list value) : sql.Rows :=
  {| sql.columns := inl cols; sql.current := Some (sql.Scanned vals); sql.pending := [] |}.



(** A cursor of three rows whose second row cannot be scanned. *)
Definition broken_cursor : sql.Rows :=
  {| sql.columns := inl ["n"];
     sql.current := None;
     sql.pending := [sql.Scanned [VInt64 1];
                     sql.ScanFails (errorString "sql: Rows are closed");
                     sql.Scanned [VInt64 3]] |}.

(** A cursor of one row that has not been advanced yet. *)
Definition one_row_cursor : sql.Rows :=
  {| sql.columns := inl ["n"]; sql.current := None; sql.pending := [sql.Scanned [VInt64 1]] |}.

(** A transaction that answers every query with the one row of
    [SELECT 1 AS "n"]. *)
Definition select_1_tx : sql.Tx :=
  {| sql.done := false;
     sql.query_answer := fun _ _ _ => inl one_row_cursor;
     sql.exec_answer := fun _ _ _ => None;
     sql.commit_answer := None;
     sql.rollback_answer := None |}.

Definition select_1_scope : PGTx :=
  {| Closed := false; tx := Some select_1_tx; ctx := Some sql.Background |}.

(** A transaction in which every query has an empty result set. *)
Definition empty_result_tx : sql.Tx :=
  {| sql.done := false;
     sql.query_answer := fun _ _ _ =>
       inl {| sql.columns := inl ["id"]; sql.current := None; sql.pending := [] |};
     sql.exec_answer := fun _ _ _ => None;
     sql.commit_answer := None;
     sql.rollback_answer := None |}.

Definition empty_result_scope : PGTx :=
  {| Closed := false; tx := Some empty_result_tx; ctx := Some sql.Background |}.


(** The scope [Begin] returns on [refusing_client]. *)
Definition refused_scope : PGTx :=
  {| Closed := false; tx := None; ctx := Some sql.Background |}.


(** A row of four columns of the supported types. *)
Definition sample_columns : list string := ["i"; "b"; "t"; "f"].
Definition sample_time : time.Time :=
  {| time.unixSec := 1700000000; time.nsec := 123000000; time.offset := 25200 |}.
Definition sample_values : list value :=
  [VInt64 (-42); VBool true; VTime sample_time; VFloat64 0].

Definition is_rows_Close (e : event) : bool :=
  match e with
  | rows_Close => true
  | _ => false
  end.

Definition is_pool_setter (call : pool_call) : bool :=
  match call with
  | PingContext _ => false
  | _ => true
  end.

(** A space or a tab. *)
Definition is_blank (c : ascii) : bool := (byte c =? byte " ") || (byte c =? byte TAB).

Fixpoint str_forallb (f : ascii -> bool) (s : string) : bool :=
  match s with
  | EmptyString => true
  | String c rest => f c && str_forallb f rest
  end.

(** A line cut at the column the logger dedents to, [lead] being the
    count of blanks it took from the head of the query. *)
Definition cut_at (lead : Z) (line : string) : string :=
  if (lead <? str_len line) && (1 <? lead) then str_drop (Z.to_nat (lead - 2)) line else line.

(** A query text given in pieces: literal text, and placeholders [$k] of
    one digit. *)
Inductive piece :=
| Text (s : string)
| Placeholder (k : nat).

Definition digit_char (k : nat) : ascii := chr (byte "0" + Z.of_nat k).

Definition piece_text (p : piece) : string :=
  match p with
  | Text s => s
  | Placeholder k => String "$" (String (digit_char k) EmptyString)
  end.

Fixpoint str_concat (l : list string) : string :=
  match l with
  | [] => EmptyString
  | s :: rest => s +:+ str_concat rest
  end.

Definition query_text (pieces : list piece) : string := str_concat (map piece_text pieces).

(** The text a piece stands for once the arguments are filled in: the
    [k]th argument in single quotes for [$k], when there is one. *)
Definition filled_piece (args : list value) (p : piece) : string :=
  match p with
  | Text s => s
  | Placeholder k =>
    match args !! (k - 1)%nat with
    | Some (VString a) => "'" +:+ a +:+ "'"
    | _ => piece_text p
    end
  end.

Definition filled_text (args : list value) (pieces : list piece) : string :=
  str_concat (map (filled_piece args) pieces).

(** Literal text holds no dollar sign; a placeholder is one of [$1] to [$9]. *)
Definition plain_piece (p : piece) : Prop :=
  match p with
  | Text s => strings_Contains s "$" = false
  | Placeholder k => (1 <= k <= 9)%nat
  end.

(** A string argument without a dollar sign. *)
Definition plain_argument (v : value) : Prop :=
  exists a, v = VString a /\ strings_Contains a "$" = false.

(** The pieces as the substitution loop leaves them after the arguments
    before index [i]. *)
Definition partly_filled (i : nat) (args : list value) (p : piece) : string :=
  match p with
  | Text s => s
  | Placeholder k => if (k <=? i)%nat then filled_piece args p else piece_text p
  end.

(** The largest value of [ParseUint] at 32 bits. *)
Definition maxVal32 : Z := wrap64 (wrap64 (Z.shiftl 1 32) - 1).

(** The range of an int32 and of an int64. *)
Definition in_int32 (n : Z) : Prop := - 2 ^ 31 <= n < 2 ^ 31.
Definition in_int64 (n : Z) : Prop := - 2 ^ 63 <= n < 2 ^ 63.

(** Two environments that differ at most in the two pool counts. *)
Definition same_but_pool_counts (env env' : environ) : Prop :=
  forall name, name <> PGMAXIDLE -> name <> PGMAXCONN -> env' name = env name.

(** A transaction scope on a transaction, with a context that is live. *)
Definition live_scope (stx : PGTx) (t : sql.Tx) : Prop :=
  tx stx = Some t /\ ctx stx = Some sql.Background.

(** The two ways to end a transaction scope. *)
Inductive terminal := ByCommit | ByRollback.

Definition PGTx_end (how : terminal) (stx : PGTx) : PGTx * outcome (option error) :=
  match how with
  | ByCommit => PGTx_Commit stx
  | ByRollback => PGTx_Rollback stx
  end.

(** An environment that sets the three pool sizes. *)
Definition sized_environ (lifetime maxIdle maxConn : string) : environ :=
  fun name =>
    if String.eqb name PGLIFETIME then lifetime
    else if String.eqb name PGMAXIDLE then maxIdle
    else if String.eqb name PGMAXCONN then maxConn
    else if String.eqb name PGHOST then "localhost"%string
    else EmptyString.

(** A cursor of two rows of two columns that has not been advanced yet;
    the second row holds a NULL. *)
Definition two_row_cursor : sql.Rows :=
  {| sql.columns := inl ["id"; "name"]; sql.current := None;
     sql.pending := [sql.Scanned [VInt64 1; VString "a"];
                     sql.Scanned [VInt64 2; VNil]] |}.

(** A notification handle whose server refuses every subscription. *)
Definition refused_channel : PGNotify :=
  {| ln := pq.NewListener (fun _ => Some (errorString "pq: permission denied")) None;
     fail := make_chan 2 |}.

(** A pool that answers every ping and grants no transaction. *)
Definition ready_pool : pool :=
  {| pool_DB := {| sql.BeginTx := fun _ => inr (errorString "sql: database is closed") |};
     PingContext_answer := fun _ => None |}.

(** ** Tactics *)

(** Division and remainder by constants, for [lia]. *)
Ltac divmod := Z.to_euclidean_division_equations.

(** The bound of a field of two or four digits. *)
Ltac field_bound :=
  first [ lia | change (10 ^ Z.of_nat 2) with 100; lia
        | change (10 ^ Z.of_nat 4) with 10000; lia ].

(** * Proofs *)

(** ** The calendar of package time *)

(** The year and day of the year [absDate] finds stand for the day they
    were found from, and the day lies within the year. *)
Lemma absDate_year_days a :
  0 <= a < 2 ^ 64 ->
  let '(year, yday) := time.absDate_year a in
  time.daysSinceEpoch year + yday = a / time.secondsPerDay
  /\ 0 <= yday < (if time.isLeap year then 366 else 365).
Proof.
  intros Ha. change (2 ^ 64) with 18446744073709551616 in Ha.
  unfold time.absDate_year, time.daysSinceEpoch, time.isLeap, wrap64.
  rewrite !Z.shiftr_div_pow2 by lia.
  change (2 ^ 2) with 4.
  unfold time.daysPer400Years, time.daysPer100Years, time.daysPer4Years,
    time.secondsPerDay, time.secondsPerHour, time.secondsPerMinute, time.absoluteZeroYear.
  change (2 ^ 64) with 18446744073709551616.
  change (365 * 400 + 97) with 146097.
  change (365 * 100 + 24) with 36524.
  change (365 * 4 + 1) with 1461.
  change (24 * (60 * 60)) with 86400.
  set (d := a / 86400).
  assert (Hd : 0 <= d < 18446744073709551616) by (subst d; divmod; lia).
  clearbody d. clear Ha a.
  split.
  - divmod; lia.
  - destruct (_ && _) eqn:E; divmod; lia.
Qed.

(** Checked on each of the 365 or 366 days of a year. *)
Lemma month_ok_all (leap : bool) (yday : Z) :
  0 <= yday < (if leap then 366 else 365) -> month_ok leap yday = true.
Proof.
  intros Hy.
  assert (Hall : forallb (fun n => month_ok leap (Z.of_nat n)) (List.seq 0%nat (if leap then 366%nat else 365%nat)) = true)
    by (destruct leap; vm_compute; reflexivity).
  rewrite forallb_forall in Hall.
  rewrite <- (Z2Nat.id yday) by lia.
  apply Hall, in_seq. destruct leap; lia.
Qed.

(** Local times from the year 0 to the year 9999 have a year of four
    digits. *)
Lemma absDate_year_range a :
  time.unixToInternal + time.internalToAbsolute - 62167219200 <= a
    < time.unixToInternal + time.internalToAbsolute + 253402300800 ->
  0 <= fst (time.absDate_year a) <= 9999.
Proof.
  unfold time.absDate_year, time.unixToInternal, time.internalToAbsolute, time.absoluteToInternal.
  rewrite !Z.shiftr_div_pow2 by lia.
  change (2 ^ 2) with 4.
  unfold time.daysPer400Years, time.daysPer100Years, time.daysPer4Years,
    time.secondsPerDay, time.secondsPerHour, time.secondsPerMinute, time.absoluteZeroYear, time.internalYear.
  cbn [fst].
  change (365 * 400 + 97) with 146097.
  change (365 * 100 + 24) with 36524.
  change (365 * 4 + 1) with 1461.
  change (24 * (60 * 60)) with 86400.
  match goal with |- ?lo <= _ < ?hi -> _ =>
    let lo' := eval vm_compute in lo in let hi' := eval vm_compute in hi in
    change lo with lo'; change hi with hi' end.
  intros Ha.
  divmod; lia.
Qed.

Lemma absClock_spec a :
  0 <= a ->
  let '(hour, min, sec) := time.absClock a in
  0 <= hour <= 23 /\ 0 <= min <= 59 /\ 0 <= sec <= 59
  /\ a / time.secondsPerDay * time.secondsPerDay
     + (hour * time.secondsPerHour + min * time.secondsPerMinute + sec) = a.
Proof.
  intros Ha. unfold time.absClock, time.secondsPerDay, time.secondsPerHour, time.secondsPerMinute.
  change (24 * (60 * 60)) with 86400. change (60 * 60) with 3600.
  divmod; lia.
Qed.

Lemma norm_small hi lo base : 0 <= lo < base -> time.norm hi lo base = (hi, lo).
Proof.
  intros Hlo. unfold time.norm.
  rewrite Z.div_small, Z.mod_small by lia. f_equal. lia.
Qed.

(** [Date] rebuilds the absolute time [absDate] and [absClock] took apart. *)
Lemma Date_absDate a ns :
  0 <= a < 2 ^ 64 -> 0 <= ns < 10 ^ 9 ->
  let '(year, month, day) := time.absDate a in
  let '(hour, min, sec) := time.absClock a in
  time.Date year month day hour min sec ns
  = {| time.unixSec := a + (time.absoluteToInternal + time.internalToUnix);
       time.nsec := ns; time.offset := 0 |}
  /\ 1 <= month <= 12 /\ 1 <= day <= time.daysIn month year.
Proof.
  intros Ha Hns.
  pose proof (absDate_year_days a Ha) as Hy.
  pose proof (absClock_spec a ltac:(lia)) as Hc.
  unfold time.absDate.
  destruct (time.absDate_year a) as [year yday].
  destruct Hy as [Hdays Hyday].
  pose proof (month_ok_all (time.isLeap year) yday Hyday) as Hm.
  unfold month_ok in Hm.
  destruct (time.absDate_month (time.isLeap year) yday) as [month day].
  destruct (time.absClock a) as [[hour min] sec].
  destruct Hc as (Hh & Hmi & Hs & Hsum).
  repeat (apply andb_prop in Hm; destruct Hm as [Hm ?]).
  assert (Hmonth : 1 <= month <= 12) by lia.
  split; [| split; [lia |]].
  - unfold time.Date.
    rewrite (norm_small year (month - 1) 12) by lia.
    rewrite (norm_small sec ns (10 ^ 9)) by lia.
    rewrite (norm_small min sec 60) by lia.
    rewrite (norm_small hour min 60) by lia.
    rewrite (norm_small day hour 24) by lia.
    replace (month - 1 + 1) with month by lia.
    f_equal.
    assert (Hd : (let d := time.daysSinceEpoch year + time.daysBefore (month - 1) in
                  let d := if time.isLeap year && (time.March <=? month) then d + 1 else d in
                  d + (day - 1)) = a / time.secondsPerDay).
    { cbv zeta. rewrite <- Hdays. destruct (time.isLeap year && (time.March <=? month)); lia. }
    cbv zeta in Hd |- *. rewrite Hd. lia.
  - unfold time.daysIn. split; [lia|].
    destruct ((month =? time.February) && time.isLeap year); lia.
Qed.

(** ** Decimal digits and byte strings *)

Lemma byte_chr z : 0 <= z < 256 -> byte (chr z) = z.
Proof.
  intros Hz. unfold byte, chr.
  rewrite N_ascii_embedding by lia. lia.
Qed.

Lemma digit_sub u : 0 <= u -> byte "0" + u - u / 10 * 10 = byte "0" + u mod 10.
Proof. intros. Z.to_euclidean_division_equations; lia. Qed.

Lemma is_digit_chr d : 0 <= d <= 9 -> is_digit (chr (byte "0" + d)) = true.
Proof.
  intros Hd. unfold is_digit. rewrite byte_chr by (change (byte "0") with 48; lia).
  change (byte "0") with 48. change (byte "9") with 57. lia.
Qed.

Lemma str_app_cons c (s t : string) : String c s +:+ t = String c (s +:+ t).
Proof. reflexivity. Qed.

Lemma str_app_nil_l (t : string) : EmptyString +:+ t = t.
Proof. reflexivity. Qed.

Lemma str_app_assoc (s t u : string) : (s +:+ t) +:+ u = s +:+ (t +:+ u).
Proof. induction s as [|c s IH]; [reflexivity|]. rewrite !str_app_cons, IH. reflexivity. Qed.

Lemma str_app_length (s t : string) :
  String.length (s +:+ t) = (String.length s + String.length t)%nat.
Proof.
  induction s as [|c s IH]; [reflexivity|].
  rewrite str_app_cons. cbn [String.length]. rewrite IH. reflexivity.
Qed.

Lemma fmtInteger_loop_S fuel u acc :
  fmt.fmtInteger_loop (S fuel) u acc
  = if 10 <=? u
    then fmt.fmtInteger_loop fuel (u / 10) (String (chr (byte "0" + u - u / 10 * 10)) acc)
    else String (chr (byte "0" + u)) acc.
Proof. reflexivity. Qed.

Lemma fmtInteger_loop_app fuel u acc :
  fmt.fmtInteger_loop fuel u acc = fmt.fmtInteger_loop fuel u EmptyString +:+ acc.
Proof.
  revert u acc. induction fuel as [|fuel IH]; intros u acc; simpl; [reflexivity|].
  destruct (10 <=? u); [|reflexivity].
  rewrite IH. rewrite (IH _ (String _ EmptyString)).
  rewrite str_app_assoc. reflexivity.
Qed.

Lemma fmtInteger_loop_fuel f f' u acc :
  0 <= u < 10 ^ Z.of_nat (S f) -> (f <= f')%nat ->
  fmt.fmtInteger_loop (S f') u acc = fmt.fmtInteger_loop (S f) u acc.
Proof.
  revert f' u acc. induction f as [|f IH]; intros f' u acc Hu Hf.
  - simpl. change (10 ^ Z.of_nat 1) with 10 in Hu.
    destruct (10 <=? u) eqn:E; [lia | reflexivity].
  - destruct f' as [|f']; [lia|].
    rewrite (fmtInteger_loop_S (S f')), (fmtInteger_loop_S (S f)).
    destruct (10 <=? u) eqn:E; [|reflexivity].
    apply IH; [|lia].
    rewrite Nat2Z.inj_succ, Z.pow_succ_r in Hu by lia.
    Z.to_euclidean_division_equations; lia.
Qed.

Lemma fmtInteger_loop_length f u :
  0 <= u < 10 ^ Z.of_nat (S f) ->
  (1 <= String.length (fmt.fmtInteger_loop (S f) u EmptyString) <= S f)%nat.
Proof.
  revert u. induction f as [|f IH]; intros u Hu.
  - simpl. change (10 ^ Z.of_nat 1) with 10 in Hu.
    destruct (10 <=? u) eqn:E; [lia | simpl; lia].
  - rewrite (fmtInteger_loop_S (S f)). destruct (10 <=? u) eqn:E; [|simpl; lia].
    rewrite fmtInteger_loop_app, str_app_length. cbn [String.length].
    rewrite Nat2Z.inj_succ, Z.pow_succ_r in Hu by lia.
    specialize (IH (u / 10) ltac:(Z.to_euclidean_division_equations; lia)). lia.
Qed.

(** The decimal parser reads back the digits [fmtInteger] writes. *)
Lemma parseUint_digits_fmt f u rest :
  0 <= u < 10 ^ Z.of_nat (S f) ->
  time.parseUint_digits (fmt.fmtInteger_loop (S f) u rest) 0 = time.parseUint_digits rest u.
Proof.
  revert u rest. induction f as [|f IH]; intros u rest Hu.
  - simpl. change (10 ^ Z.of_nat 1) with 10 in Hu.
    destruct (10 <=? u) eqn:E; [lia|].
    cbn [time.parseUint_digits]. rewrite is_digit_chr, byte_chr by (change (byte "0") with 48; lia).
    f_equal. lia.
  - rewrite (fmtInteger_loop_S (S f)). destruct (10 <=? u) eqn:E.
    + rewrite Nat2Z.inj_succ, Z.pow_succ_r in Hu by lia.
      rewrite IH by (Z.to_euclidean_division_equations; lia).
      rewrite digit_sub by lia.
      cbn [time.parseUint_digits].
      rewrite is_digit_chr, byte_chr
        by (change (byte "0") with 48; Z.to_euclidean_division_equations; lia).
      f_equal. Z.to_euclidean_division_equations; lia.
    + cbn [time.parseUint_digits]. rewrite is_digit_chr, byte_chr by (change (byte "0") with 48; lia).
      f_equal. lia.
Qed.

Lemma str_repeat_length c n : String.length (str_repeat c n) = n.
Proof. induction n as [|n IH]; simpl; [reflexivity | rewrite IH; reflexivity]. Qed.

Lemma parseUint_digits_zeros k s :
  time.parseUint_digits (str_repeat "0" k +:+ s) 0 = time.parseUint_digits s 0.
Proof.
  induction k as [|k IH]; [reflexivity|].
  cbn [str_repeat]. rewrite str_app_cons. cbn [time.parseUint_digits].
  change (is_digit "0") with true. cbv iota. exact IH.
Qed.

(** A field of [w] digits: its length and what the decimal parser reads. *)
Lemma appendInt_field x w :
  (1 <= w <= 18)%nat -> 0 <= x < 10 ^ Z.of_nat w ->
  String.length (time.appendInt x w) = w
  /\ forall rest, time.parseUint_digits (time.appendInt x w +:+ rest) 0
                  = time.parseUint_digits rest x.
Proof.
  intros Hw Hx. unfold time.appendInt.
  destruct (x <? 0) eqn:E; [lia|].
  assert (H64 : 10 ^ Z.of_nat w <= 10 ^ 18) by (apply Z.pow_le_mono_r; lia).
  assert (Hwr : wrap64 x = x).
  { unfold wrap64. apply Z.mod_small. change (10 ^ 18) with 1000000000000000000 in H64.
    change (2 ^ 64) with 18446744073709551616. lia. }
  rewrite Hwr.
  destruct w as [|w']; [lia|].
  rewrite (fmtInteger_loop_fuel w' 19) by lia.
  pose proof (fmtInteger_loop_length w' x Hx) as Hlen.
  split.
  - rewrite str_app_length, str_repeat_length. lia.
  - intros rest. rewrite str_app_assoc, parseUint_digits_zeros.
    rewrite <- fmtInteger_loop_app. apply parseUint_digits_fmt. exact Hx.
Qed.

Lemma str_length2 s : String.length s = 2%nat -> exists a b, s = String a (String b EmptyString).
Proof. destruct s as [|a [|b [|c s]]]; try discriminate. eauto. Qed.

Lemma str_length4 s :
  String.length s = 4%nat ->
  exists a b c d, s = String a (String b (String c (String d EmptyString))).
Proof. destruct s as [|a [|b [|c [|d [|e s]]]]]; try discriminate. eauto 6. Qed.

(** The parser cuts a text of fields of four and two bytes between the
    separators of the layout at the places the fields were written. *)
Lemma parseRFC3339_fields Y M D h mi sc tail :
  String.length Y = 4%nat -> String.length M = 2%nat -> String.length D = 2%nat ->
  String.length h = 2%nat -> String.length mi = 2%nat -> String.length sc = 2%nat ->
  time.parseRFC3339
    (Y +:+ "-" +:+ M +:+ "-" +:+ D +:+ "T" +:+ h +:+ ":" +:+ mi +:+ ":" +:+ sc +:+ tail)
  = match time.parseUint Y 0 9999, time.parseUint M 1 12 with
    | Some year, Some month =>
      match time.parseUint D 1 (time.daysIn month year), time.parseUint h 0 23,
            time.parseUint mi 0 59, time.parseUint sc 0 59 with
      | Some day, Some hour, Some min, Some sec =>
        time.parseRFC3339_frac year month day hour min sec tail
      | _, _, _, _ => None
      end
    | _, _ => None
    end.
Proof.
  intros HY HM HD Hh Hmi Hsc.
  destruct (str_length4 Y HY) as (y1 & y2 & y3 & y4 & ->).
  destruct (str_length2 M HM) as (m1 & m2 & ->).
  destruct (str_length2 D HD) as (d1 & d2 & ->).
  destruct (str_length2 h Hh) as (h1 & h2 & ->).
  destruct (str_length2 mi Hmi) as (i1 & i2 & ->).
  destruct (str_length2 sc Hsc) as (s1 & s2 & ->).
  cbv [String.append]. unfold time.parseRFC3339.
  cbn [String.length str_take str_drop].
  replace (_ <? 19)%nat with false by (symmetry; apply Nat.ltb_ge; lia).
  unfold time.sep_ok, str_at. cbn [String.get Nat.eqb].
  reflexivity.
Qed.

Lemma str_app_nil_r (s : string) : s +:+ EmptyString = s.
Proof. induction s as [|c s IH]; [reflexivity|]. rewrite str_app_cons, IH. reflexivity. Qed.

Lemma str_take_app (s t : string) : str_take (String.length s) (s +:+ t) = s.
Proof. induction s as [|c s IH]; [destruct t; reflexivity|]. rewrite str_app_cons. simpl. rewrite IH. reflexivity. Qed.

Lemma str_drop_app (s t : string) : str_drop (String.length s) (s +:+ t) = t.
Proof. induction s as [|c s IH]; [destruct t; reflexivity|]. rewrite str_app_cons. simpl. exact IH. Qed.

Lemma str_take_length n s : (n <= String.length s)%nat -> String.length (str_take n s) = n.
Proof.
  revert s. induction n as [|n IH]; intros s Hn; [reflexivity|].
  destruct s as [|c s]; simpl in *; [lia|]. rewrite IH by lia. reflexivity.
Qed.

Lemma str_take_snoc n s c :
  str_at s n = Some c -> str_take (S n) s = str_take n s +:+ String c EmptyString.
Proof.
  unfold str_at. revert s. induction n as [|n IH]; intros s Hc.
  - destruct s as [|c' s]; simpl in Hc; [discriminate|]. injection Hc as ->. reflexivity.
  - destruct s as [|c' s]; simpl in Hc; [discriminate|].
    change (str_take (S (S n)) (String c' s)) with (String c' (str_take (S n) s)).
    rewrite (IH s Hc). reflexivity.
Qed.

Lemma str_at_lt n s : (n < String.length s)%nat -> exists c, str_at s n = Some c.
Proof.
  unfold str_at. revert s. induction n as [|n IH]; intros s Hn; destruct s as [|c s]; simpl in *; try lia.
  - eauto.
  - apply IH. lia.
Qed.

Lemma parseUint_digits_snoc s c x :
  time.parseUint_digits (s +:+ String c EmptyString) x
  = match time.parseUint_digits s x with
    | Some v => if is_digit c then Some (v * 10 + byte c - byte "0") else None
    | None => None
    end.
Proof.
  revert x. induction s as [|c' s IH]; intros x.
  - rewrite str_app_nil_l. simpl. destruct (is_digit c); reflexivity.
  - rewrite str_app_cons. cbn [time.parseUint_digits].
    destruct (is_digit c'); [apply IH | reflexivity].
Qed.

Lemma count_digits_app ds zc z x v :
  time.parseUint_digits ds x = Some v -> is_digit zc = false ->
  time.count_digits (ds +:+ String zc z) = String.length ds.
Proof.
  revert x. induction ds as [|c ds IH]; intros x Hp Hz.
  - rewrite str_app_nil_l. simpl. rewrite Hz. reflexivity.
  - rewrite str_app_cons. cbn [time.parseUint_digits] in Hp. cbn [time.count_digits String.length].
    destruct (is_digit c); [|discriminate]. f_equal. eapply IH; eauto.
Qed.

(** Dropping the trailing zeros of a digit string divides its value by a
    power of ten. *)
Lemma trim_zeros_value buf n v :
  (n <= String.length buf)%nat ->
  time.parseUint_digits (str_take n buf) 0 = Some v ->
  exists v', time.parseUint_digits (str_take (time.trim_zeros n buf) buf) 0 = Some v'
             /\ v' * 10 ^ Z.of_nat (n - time.trim_zeros n buf) = v
             /\ (time.trim_zeros n buf <= n)%nat.
Proof.
  revert v. induction n as [|n IH]; intros v Hn Hv.
  - exists v. simpl in *. split; [exact Hv|]. split; [lia | lia].
  - destruct (str_at_lt n buf ltac:(lia)) as [c Hc].
    rewrite (str_take_snoc _ _ _ Hc), parseUint_digits_snoc in Hv.
    destruct (time.parseUint_digits (str_take n buf) 0) as [w|] eqn:Hw; [|discriminate].
    destruct (is_digit c) eqn:Hd; [|discriminate]. injection Hv as Hv.
    cbn [time.trim_zeros]. rewrite Hc.
    destruct (byte c =? byte "0") eqn:E.
    + destruct (IH w ltac:(lia) eq_refl) as (v' & Hv' & Hval & Hle).
      exists v'. split; [exact Hv'|]. split; [|lia].
      replace (S n - time.trim_zeros n buf)%nat with (S (n - time.trim_zeros n buf)) by lia.
      rewrite Nat2Z.inj_succ, Z.pow_succ_r by lia.
      apply Z.eqb_eq in E. lia.
    + exists v. rewrite (str_take_snoc _ _ _ Hc), parseUint_digits_snoc, Hw, Hd.
      split; [f_equal; lia|]. split; [|lia].
      rewrite Nat.sub_diag. simpl. lia.
Qed.

(** The fraction the format writes, trailing zeros dropped, is read back as
    the nanoseconds it was written from. *)
Lemma parseRFC3339_frac_formatNano year month day hour min sec ns z :
  0 <= ns < 10 ^ 9 -> zone_head z ->
  time.parseRFC3339_frac year month day hour min sec (time.formatNano ns +:+ z)
  = time.parseRFC3339_zone (time.Date year month day hour min sec ns) z.
Proof.
  intros Hns (zc & z' & -> & Hzd & Hzp).
  unfold time.formatNano.
  destruct (appendInt_field ns 9 ltac:(lia) Hns) as [Hlen Hparse].
  specialize (Hparse EmptyString). rewrite str_app_nil_r in Hparse.
  cbn [time.parseUint_digits] in Hparse.
  set (buf := time.appendInt ns 9) in *.
  destruct (trim_zeros_value buf 9 ns ltac:(lia)) as (v' & Hv' & Hval & Hle).
  { rewrite <- Hlen at 1. rewrite <- (str_app_nil_r buf) at 2. rewrite str_take_app. exact Hparse. }
  set (k := time.trim_zeros 9 buf) in *.
  destruct k as [|k'] eqn:Ek.
  - (* every digit is a zero: the fraction is left out *)
    simpl in Hv'. injection Hv' as <-.
    assert (ns = 0) by lia. subst ns.
    rewrite str_app_nil_l. unfold time.parseRFC3339_frac.
    destruct z' as [|c1 rest]; [reflexivity|]. rewrite Hzp. reflexivity.
  - assert (Hk : String.length (str_take (S k') buf) = S k') by (apply str_take_length; lia).
    destruct (str_take (S k') buf) as [|c1 ds] eqn:Hds; [discriminate|].
    cbn [String.length] in Hk.
    rewrite !str_app_cons. unfold time.parseRFC3339_frac.
    cbn [time.parseUint_digits] in Hv'.
    destruct (is_digit c1) eqn:Hc1; [|discriminate].
    change (byte "." =? byte ".") with true. cbn [andb].
    rewrite (count_digits_app ds zc z' _ _ Hv' Hzd).
    unfold time.parseNanoseconds.
    replace (Nat.min (2 + String.length ds) 10) with (S (S (String.length ds))) by lia.
    cbn [str_take str_drop plus].
    rewrite str_take_app, str_drop_app.
    cbn [time.parseUint_digits]. rewrite Hc1, Hv'.
    f_equal. f_equal.
    replace (Z.of_nat (10 - S (S (String.length ds)))) with (Z.of_nat (9 - S k')) by lia.
    exact Hval.
Qed.

Lemma parseUint_field x w lo hi :
  (1 <= w <= 18)%nat -> 0 <= x < 10 ^ Z.of_nat w -> lo <= x <= hi ->
  time.parseUint (time.appendInt x w) lo hi = Some x.
Proof.
  intros Hw Hx Hr. unfold time.parseUint.
  destruct (appendInt_field x w Hw Hx) as [_ Hp].
  specialize (Hp EmptyString). rewrite str_app_nil_r in Hp. rewrite Hp.
  cbn [time.parseUint_digits].
  destruct (x <? lo) eqn:E1; [lia|]. destruct (hi <? x) eqn:E2; [lia|]. reflexivity.
Qed.

Lemma formatZone_head off : zone_head (time.formatZone off).
Proof.
  unfold time.formatZone, zone_head.
  destruct (off =? 0); [eexists _, _; split; [reflexivity | split; reflexivity]|].
  cbv zeta. destruct (Z.quot off 60 <? 0);
    rewrite str_app_cons; eexists _, _; (split; [reflexivity | split; reflexivity]).
Qed.

(** A zone offset of whole minutes is read back as it was written. *)
Lemma parseRFC3339_zone_formatZone t off :
  -86400 < off < 86400 -> off mod 60 = 0 ->
  time.parseRFC3339_zone t (time.formatZone off)
  = Some (if off =? 0 then t
          else {| time.unixSec := time.unixSec t - off; time.nsec := time.nsec t;
                  time.offset := off |}).
Proof.
  intros Hoff Hmod. unfold time.formatZone.
  destruct (off =? 0) eqn:E0; [reflexivity|].
  apply Z.eqb_neq in E0. cbv zeta.
  set (zone := Z.quot off 60).
  set (az := if zone <? 0 then - zone else zone).
  assert (Haz : 0 < az < 1440 /\ az * 60 = Z.abs off).
  { subst az zone. destruct (Z.quot off 60 <? 0) eqn:E; Z.to_euclidean_division_equations; lia. }
  assert (Hh : 0 <= Z.quot az 60 <= 23) by (Z.to_euclidean_division_equations; lia).
  assert (Hm : 0 <= Z.rem az 60 <= 59) by (Z.to_euclidean_division_equations; lia).
  pose proof (parseUint_field (Z.quot az 60) 2 0 23 ltac:(lia) ltac:(change (10 ^ Z.of_nat 2) with 100; lia) Hh) as Ph.
  pose proof (parseUint_field (Z.rem az 60) 2 0 59 ltac:(lia) ltac:(change (10 ^ Z.of_nat 2) with 100; lia) Hm) as Pm.
  destruct (appendInt_field (Z.quot az 60) 2 ltac:(lia) ltac:(change (10 ^ Z.of_nat 2) with 100; lia)) as [Lh _].
  destruct (appendInt_field (Z.rem az 60) 2 ltac:(lia) ltac:(change (10 ^ Z.of_nat 2) with 100; lia)) as [Lm _].
  destruct (str_length2 _ Lh) as (h1 & h2 & Eh).
  destruct (str_length2 _ Lm) as (m1 & m2 & Em).
  rewrite Eh, Em in *.
  assert (Hsum : (Z.quot az 60 * 60 + Z.rem az 60) * 60 = Z.abs off)
    by (Z.to_euclidean_division_equations; lia).
  unfold time.parseRFC3339_zone.
  destruct (zone <? 0) eqn:Ez; cbv [String.append];
    cbn [String.eqb Ascii.eqb String.length Nat.eqb negb str_take str_drop];
    rewrite Ph, Pm; unfold time.sep_ok, str_at; cbn [String.get Nat.eqb];
    change (byte "-" =? byte "-") with true; change (byte ":" =? byte ":") with true;
    change (byte "+" =? byte "+") with true; change (byte "+" =? byte "-") with false;
    cbn [orb andb negb]; do 2 f_equal; subst az zone;
    Z.to_euclidean_division_equations; lia.
Qed.

(** ** [time.Parse] undoes [Time.Format] *)

(** [time.Parse] restores a time formatted in the layout RFC3339Nano when
    its local date has a year of four digits and its zone offset is a whole
    number of minutes of less than a day. *)
Theorem Parse_Format t :
  minLocal <= time.unixSec t + time.offset t < maxLocal ->
  0 <= time.nsec t < 10 ^ 9 ->
  -86400 < time.offset t < 86400 -> time.offset t mod 60 = 0 ->
  time.Parse_RFC3339Nano (time.Format_RFC3339Nano t) = (t, None).
Proof.
  intros Hloc Hns Hoff Hmod. unfold minLocal, maxLocal in Hloc.
  unfold time.Parse_RFC3339Nano, time.Format_RFC3339Nano.
  set (C := time.unixToInternal + time.internalToAbsolute).
  assert (HC : C = 9223372028715321600) by reflexivity.
  assert (Ha : time.abs t = time.unixSec t + time.offset t + C).
  { unfold time.abs, wrap64. fold C. apply Z.mod_small.
    change (2 ^ 64) with 18446744073709551616. lia. }
  rewrite Ha. set (a := time.unixSec t + time.offset t + C) in *.
  assert (Hrange : 0 <= a < 2 ^ 64) by (change (2 ^ 64) with 18446744073709551616; lia).
  pose proof (Date_absDate a (time.nsec t) Hrange Hns) as HD.
  pose proof (absDate_year_range a ltac:(fold C; lia)) as HY.
  pose proof (absClock_spec a ltac:(lia)) as HCk.
  unfold time.absDate in *.
  destruct (time.absDate_year a) as [year yday]. cbn [fst] in HY.
  destruct (time.absDate_month (time.isLeap year) yday) as [month day].
  destruct (time.absClock a) as [[hour min] sec].
  destruct HD as (HDate & Hmonth & Hday).
  destruct HCk as (Hh & Hmi & Hs & _).
  assert (Hday31 : day <= 31).
  { destruct Hday as [_ Hd]. unfold time.daysIn in Hd.
    destruct ((month =? time.February) && time.isLeap year); [lia|].
    assert (Hcases : month = 1 \/ month = 2 \/ month = 3 \/ month = 4 \/ month = 5 \/ month = 6
            \/ month = 7 \/ month = 8 \/ month = 9 \/ month = 10 \/ month = 11 \/ month = 12) by lia.
    etransitivity; [exact Hd|].
    repeat (destruct Hcases as [Hcases | Hcases]);
      subst month; apply Z.leb_le; reflexivity. }
  rewrite parseRFC3339_fields;
    try (apply appendInt_field; field_bound).
  rewrite !parseUint_field by field_bound.
  rewrite parseRFC3339_frac_formatNano by (auto using formatZone_head).
  rewrite parseRFC3339_zone_formatZone by assumption.
  rewrite HDate. destruct t as [us ns off]. cbn [time.unixSec time.nsec time.offset] in *.
  destruct (off =? 0) eqn:E0.
  - apply Z.eqb_eq in E0. subst off. do 2 f_equal. subst a. 
    assert (time.absoluteToInternal + time.internalToUnix = - C) by reflexivity. lia.
  - do 2 f_equal. subst a.
    assert (time.absoluteToInternal + time.internalToUnix = - C) by reflexivity. lia.
Qed.

(** ** [strconv.ParseInt] undoes [fmt.Sprint] *)

Lemma ParseUint_loop_digit d rest n :
  0 <= d <= 9 -> 0 <= n -> n * 10 + d < 2 ^ 64 ->
  strconv.ParseUint_loop 10 true cutoff10 maxVal64 (String (chr (byte "0" + d)) rest) n false
  = strconv.ParseUint_loop 10 true cutoff10 maxVal64 rest (n * 10 + d) false.
Proof.
  intros Hd Hn Hb. change (2 ^ 64) with 18446744073709551616 in Hb.
  cbn [strconv.ParseUint_loop]. 
  rewrite byte_chr by (change (byte "0") with 48; lia).
  change (byte "0") with 48. change (byte "9") with 57. change (byte "_") with 95.
  destruct (48 + d =? 95) eqn:E1; [lia|]. cbn [andb].
  destruct (48 <=? 48 + d) eqn:E2; [|lia].
  destruct (48 + d <=? 57) eqn:E3; [|lia]. cbn [andb].
  destruct (10 <=? 48 + d - 48) eqn:E4; [lia|].
  change cutoff10 with 1844674407370955162. change maxVal64 with 18446744073709551615.
  destruct (1844674407370955162 <=? n) eqn:E5; [lia|].
  unfold wrap64. change (2 ^ 64) with 18446744073709551616.
  rewrite (Z.mod_small (n * 10)) by lia.
  rewrite (Z.mod_small (n * 10 + (48 + d - 48))) by lia.
  destruct (n * 10 + (48 + d - 48) <? n * 10) eqn:E6; [lia|].
  destruct (18446744073709551615 <? n * 10 + (48 + d - 48)) eqn:E7; [lia|].
  cbn [orb]. f_equal. lia.
Qed.

(** The digit loop of [ParseUint] reads back the digits [fmtInteger]
    writes, without reaching its cutoff. *)
Lemma ParseUint_loop_fmt f u rest :
  0 <= u < 10 ^ Z.of_nat (S f) -> u < 2 ^ 64 ->
  strconv.ParseUint_loop 10 true cutoff10 maxVal64 (fmt.fmtInteger_loop (S f) u rest) 0 false
  = strconv.ParseUint_loop 10 true cutoff10 maxVal64 rest u false.
Proof.
  revert u rest. induction f as [|f IH]; intros u rest Hu Hb.
  - rewrite fmtInteger_loop_S. change (10 ^ Z.of_nat 1) with 10 in Hu.
    destruct (10 <=? u) eqn:E; [lia|].
    rewrite ParseUint_loop_digit by lia. f_equal.
  - rewrite fmtInteger_loop_S. destruct (10 <=? u) eqn:E.
    + rewrite Nat2Z.inj_succ, Z.pow_succ_r in Hu by lia.
      rewrite IH by (Z.to_euclidean_division_equations; lia).
      rewrite digit_sub by lia.
      rewrite ParseUint_loop_digit by (Z.to_euclidean_division_equations; lia).
      f_equal. Z.to_euclidean_division_equations; lia.
    + rewrite ParseUint_loop_digit by lia. f_equal.
Qed.

Lemma fmtInteger_loop_head f u rest :
  0 < u < 10 ^ Z.of_nat (S f) ->
  exists c s', fmt.fmtInteger_loop (S f) u rest = String c s' /\ 49 <= byte c <= 57.
Proof.
  revert u rest. induction f as [|f IH]; intros u rest Hu.
  - rewrite fmtInteger_loop_S. change (10 ^ Z.of_nat 1) with 10 in Hu.
    destruct (10 <=? u) eqn:E; [lia|].
    eexists _, _. split; [reflexivity|].
    rewrite byte_chr by (change (byte "0") with 48; lia). change (byte "0") with 48. lia.
  - rewrite fmtInteger_loop_S. destruct (10 <=? u) eqn:E.
    + rewrite Nat2Z.inj_succ, Z.pow_succ_r in Hu by lia.
      apply IH. Z.to_euclidean_division_equations; lia.
    + eexists _, _. split; [reflexivity|].
      rewrite byte_chr by (change (byte "0") with 48; lia). change (byte "0") with 48. lia.
Qed.

(** The decimal digits of a uint64 parse back to it, in base 0 as well. *)
Lemma ParseUint_decimal u :
  0 <= u < 2 ^ 64 ->
  strconv.ParseUint (fmt.fmtInteger_loop 20 u EmptyString) 0 64 = (u, None).
Proof.
  intros Hu.
  assert (H20 : u < 10 ^ Z.of_nat 20)
    by (change (2 ^ 64) with 18446744073709551616 in Hu;
        change (10 ^ Z.of_nat 20) with 100000000000000000000; lia).
  destruct (Z.eq_dec u 0) as [-> | Hnz]; [reflexivity|].
  destruct (fmtInteger_loop_head 19 u EmptyString ltac:(lia)) as (c & s' & Hs & Hc).
  pose proof (ParseUint_loop_fmt 19 u EmptyString ltac:(lia) ltac:(lia)) as Hloop.
  rewrite Hs in *. unfold strconv.ParseUint.
  change (0 =? 0) with true. change ((2 <=? 0) && (0 <=? 36)) with false. cbv iota.
  change (byte "0") with 48.
  destruct (byte c =? 48) eqn:E; [lia|].
  change (negb (64 =? 0) && ((64 <? 0) || (64 <? 64))) with false. cbv iota.
  change (64 =? 0) with false. cbv iota zeta.
  fold cutoff10. fold maxVal64. rewrite Hloop. reflexivity.
Qed.

(** [strconv.ParseInt(s, 0, 64)] restores every int64 printed by
    [fmt.Sprint]. *)
Theorem ParseInt_Sprint_int64 v :
  - 2 ^ 63 <= v < 2 ^ 63 ->
  strconv.ParseInt (fmt.Sprint_int64 v) 0 64 = (v, None).
Proof.
  intros Hv. change (2 ^ 63) with 9223372036854775808 in Hv.
  unfold fmt.Sprint_int64.
  destruct (v <? 0) eqn:En.
  - assert (Hw : wrap64 (- v) = - v)
      by (unfold wrap64; apply Z.mod_small; change (2 ^ 64) with 18446744073709551616; lia).
    rewrite Hw. unfold strconv.ParseInt.
    change (byte "-" =? byte "+") with false. change (byte "-" =? byte "-") with true.
    cbv iota. rewrite ParseUint_decimal by (change (2 ^ 64) with 18446744073709551616; lia).
    cbv iota zeta. change (64 =? 0) with false. cbv iota.
    change (wrap64 (Z.shiftl 1 (64 - 1))) with 9223372036854775808.
    cbn [negb andb]. destruct (9223372036854775808 <? - v) eqn:E; [lia|].
    f_equal. lia.
  - assert (Hw : wrap64 v = v)
      by (unfold wrap64; apply Z.mod_small; change (2 ^ 64) with 18446744073709551616; lia).
    rewrite Hw.
    pose proof (ParseUint_decimal v ltac:(change (2 ^ 64) with 18446744073709551616; lia)) as HP.
    destruct (Z.eq_dec v 0) as [-> | Hnz]; [reflexivity|].
    destruct (fmtInteger_loop_head 19 v EmptyString
                ltac:(change (10 ^ Z.of_nat 20) with 100000000000000000000; lia))
      as (c & s' & Hs & Hc).
    rewrite Hs in *. unfold strconv.ParseInt.
    change (byte "+") with 43. change (byte "-") with 45.
    destruct (byte c =? 43) eqn:E1; [lia|]. destruct (byte c =? 45) eqn:E2; [lia|].
    rewrite HP. cbv iota zeta. change (64 =? 0) with false. cbv iota.
    change (wrap64 (Z.shiftl 1 (64 - 1))) with 9223372036854775808.
    cbn [negb andb]. destruct (9223372036854775808 <=? v) eqn:E; [lia|]. reflexivity.
Qed.

(** ** The row decoder and the fetch loops *)

Lemma bind_Run_Returns {A B} (a : A) (tr : list event) (f : A -> M B) :
  (Run (Returns a) tr ≫= f) = Run (result (f a)) (tr ++ trace (f a)).
Proof. reflexivity. Qed.

Section Decode.
Context `{Library}.

Lemma decoded_cons c columns v values m :
  decoded (c :: columns) (v :: values) m
  = decoded columns values (<[c := fst (decode v)]> m).
Proof. reflexivity. Qed.

(** The loop of [fetchRow] over a row with as many values as columns. *)
Lemma fetchRow_loop_spec columns values m :
  length values = length columns ->
  fetchRow_loop columns values m
  = Run (Returns (decoded columns values m)) (decode_log values).
Proof.
  revert columns m. induction values as [|v values IH]; intros columns m Hlen.
  - destruct columns; [reflexivity | discriminate].
  - destruct columns as [|c columns]; [discriminate|].
    cbn [fetchRow_loop]. unfold emit_all. rewrite bind_Run_Returns.
    rewrite IH by (simpl in Hlen; lia). reflexivity.
Qed.

Lemma decoded_lookup_other columns values m k :
  k ∉ columns -> decoded columns values m !! k = m !! k.
Proof.
  revert values m. induction columns as [|c columns IH]; intros values m Hk; [reflexivity|].
  destruct values as [|v values]; [reflexivity|].
  apply not_elem_of_cons in Hk as [Hne Hk].
  rewrite decoded_cons. rewrite IH by exact Hk.
  apply lookup_insert_ne. congruence.
Qed.

Lemma decoded_lookup_is_Some columns values m k :
  is_Some (m !! k) -> is_Some (decoded columns values m !! k).
Proof.
  revert values m. induction columns as [|c columns IH]; intros values m Hk; [exact Hk|].
  destruct values as [|v values]; [exact Hk|].
  rewrite decoded_cons. apply IH.
  destruct (decide (c = k)) as [->|Hne].
  - rewrite lookup_insert_eq. eauto.
  - rewrite lookup_insert_ne by exact Hne. exact Hk.
Qed.

(** Each column name is a key of the decoded row. *)
Lemma decoded_lookup_column columns values m c :
  length values = length columns -> c ∈ columns ->
  is_Some (decoded columns values m !! c).
Proof.
  revert values m. induction columns as [|c' columns IH]; intros values m Hlen Hc.
  - apply elem_of_nil in Hc as [].
  - destruct values as [|v values]; [discriminate|].
    rewrite decoded_cons.
    destruct (decide (c' = c)) as [->|Hne].
    + apply (decoded_lookup_is_Some columns values). rewrite lookup_insert_eq. eauto.
    + apply IH; [simpl in Hlen; lia|].
      apply elem_of_cons in Hc as [Hc|Hc]; [congruence | exact Hc].
Qed.

(** The value under a column name is the text of the last column that
    bears the name. *)
Lemma decoded_lookup_last columns values m i c v :
  columns !! i = Some c -> values !! i = Some v ->
  (forall j, (i < j)%nat -> columns !! j <> Some c) ->
  decoded columns values m !! c = Some (fst (decode v)).
Proof.
  revert values m i. induction columns as [|c' columns IH]; intros values m i Hc Hv Hlast.
  - discriminate.
  - destruct values as [|v' values]; [discriminate|].
    rewrite decoded_cons.
    destruct i as [|i].
    + injection Hc as ->. injection Hv as ->.
      rewrite (decoded_lookup_other columns values); [apply lookup_insert_eq|].
      intros Hin. apply list_elem_of_lookup in Hin as [j Hj].
      apply (Hlast (S j)); [lia | exact Hj].
    + apply (IH values _ i); [exact Hc | exact Hv |].
      intros j Hj. apply (Hlast (S j)). lia.
Qed.

End Decode.

Section Fetch.
Context `{Library}.

(** [fetchRow] on a row with as many values as columns. *)
Lemma fetchRow_scanned rows cols vals :
  sql.columns rows = inl cols -> sql.current rows = Some (sql.Scanned vals) ->
  length vals = length cols ->
  fetchRow rows = Run (Returns (Some (decoded cols vals ∅), None)) (decode_log vals).
Proof.
  intros Hc Hr Hlen. unfold fetchRow, sql.Columns, sql.Scan. rewrite Hc, Hr.
  rewrite (proj2 (Nat.eqb_eq _ _) Hlen).
  rewrite fetchRow_loop_spec by exact Hlen.
  rewrite bind_Run_Returns. cbn [result trace mret M_ret]. rewrite app_nil_r. reflexivity.
Qed.

(** [fetchRow] always returns: the length check of [Scan] keeps the loop
    within the column names. *)
Lemma fetchRow_returns rows : exists r, result (fetchRow rows) = Returns r.
Proof.
  unfold fetchRow, sql.Columns, sql.Scan.
  destruct (sql.columns rows) as [cols|e]; [|eauto].
  destruct (sql.current rows) as [[vals|e]|].
  - destruct (length vals =? length cols)%nat eqn:E.
    + apply Nat.eqb_eq in E. rewrite fetchRow_loop_spec by exact E.
      rewrite bind_Run_Returns. eauto.
    + eauto.
  - destruct e; eauto.
  - eauto.
Qed.

(** The structural loop of [FetchAll] is the [for rows.Next()] loop. *)
Lemma FetchAll_loop_Next stx rows acc :
  FetchAll_loop stx (sql.columns rows) (sql.pending rows) acc
  = let '(more, rows') := sql.Next rows in
    if more then
      '(data, err) ← PGTx_FetchRow stx rows';
      match err with
      | Some _ => mret ([], None)
      | None => FetchAll_loop stx (sql.columns rows') (sql.pending rows') (acc ++ [data])
      end
    else mret (acc, None).
Proof. unfold sql.Next. destruct (sql.pending rows); reflexivity. Qed.

(** The loop of [FetchAll] gives up everything at the first row that
    [fetchRow] fails on. *)
Lemma FetchAll_loop_failure stx cols pre r post acc row e :
  result (fetchRow {| sql.columns := cols; sql.current := Some r; sql.pending := post |})
    = Returns (row, Some e) ->
  result (FetchAll_loop stx cols (pre ++ r :: post) acc) = Returns ([], None).
Proof.
  intros Hfail. revert acc. induction pre as [|h pre IH]; intros acc.
  - cbn [app FetchAll_loop]. unfold PGTx_FetchRow, mbind, M_bind.
    rewrite Hfail. reflexivity.
  - cbn [app FetchAll_loop]. unfold PGTx_FetchRow, mbind, M_bind.
    destruct (fetchRow_returns {| sql.columns := cols; sql.current := Some h;
                                  sql.pending := pre ++ r :: post |}) as [[data err] Hr].
    rewrite Hr. destruct err; [reflexivity|]. cbn [result]. apply IH.
Qed.

End Fetch.




(** ** The DSN, the query logger and the query methods *)

Lemma byte_inj c1 c2 : byte c1 = byte c2 -> c1 = c2.
Proof.
  unfold byte. intros Hb. apply N2Z.inj in Hb.
  rewrite <- (ascii_N_embedding c1), <- (ascii_N_embedding c2), Hb. reflexivity.
Qed.

Lemma strings_HasPrefix_spec s prefix :
  strings_HasPrefix s prefix = true <-> exists post, s = prefix +:+ post.
Proof.
  revert s. induction prefix as [|p prefix IH]; intros s.
  - split; [intros _; exists s; reflexivity | intros _; destruct s; reflexivity].
  - destruct s as [|c s]; cbn [strings_HasPrefix].
    + split; [discriminate | intros [post Hp]; discriminate].
    + rewrite andb_true_iff, Z.eqb_eq, IH. split.
      * intros [Hc [post ->]]. apply byte_inj in Hc as ->. exists post. reflexivity.
      * intros [post Hp]. rewrite str_app_cons in Hp. injection Hp as -> ->. eauto.
Qed.

(** [strings.Contains] finds exactly the texts that occur in [s]. *)
Lemma strings_Contains_spec s substr :
  strings_Contains s substr = true <-> exists pre post, s = pre +:+ substr +:+ post.
Proof.
  induction s as [|c s IH].
  - cbn [strings_Contains]. rewrite orb_false_r, strings_HasPrefix_spec. split.
    + intros [post Hp]. exists EmptyString, post. exact Hp.
    + intros (pre & post & Hp). destruct pre; [eauto | discriminate].
  - cbn [strings_Contains]. rewrite orb_true_iff, strings_HasPrefix_spec, IH. split.
    + intros [[post Hp] | (pre & post & ->)].
      * exists EmptyString, post. exact Hp.
      * exists (String c pre), post. reflexivity.
    + intros (pre & post & Hp). destruct pre as [|c' pre].
      * left. exists post. exact Hp.
      * right. rewrite str_app_cons in Hp. injection Hp as -> ->. eauto.
Qed.

Section Query.
Context `{Library}.

(** The substitution loop logs nothing; it returns when every argument
    is a string and panics at the first one that is not. *)
Lemma sqlQuery_substitute_strings i args query :
  forallb is_string_value args = true ->
  exists query', sqlQuery_substitute i args query = Run (Returns query') [].
Proof.
  revert i query. induction args as [|arg args IH]; intros i query Hs.
  - eexists. reflexivity.
  - cbn [forallb] in Hs. apply andb_prop in Hs as [Ha Hs].
    destruct arg; try discriminate. cbn [sqlQuery_substitute]. apply IH, Hs.
Qed.

Lemma sqlQuery_substitute_trace i args query : trace (sqlQuery_substitute i args query) = [].
Proof.
  revert i query. induction args as [|arg args IH]; intros i query; [reflexivity|].
  destruct arg; try reflexivity. cbn [sqlQuery_substitute]. apply IH.
Qed.

Lemma sqlQuery_lines_no_request i lead lines :
  filter (fun e => is_driver_request e = true) (sqlQuery_lines i lead lines) = [].
Proof.
  revert i lead. induction lines as [|line lines IH]; intros i lead; [reflexivity|].
  cbn [sqlQuery_lines]. rewrite filter_cons_False by (cbn; discriminate). apply IH.
Qed.

(** The logger sends nothing to the driver. *)
Lemma sqlQuery_no_request query args :
  filter (fun e => is_driver_request e = true) (trace (sqlQuery query args)) = [].
Proof.
  unfold sqlQuery, mbind, M_bind.
  pose proof (sqlQuery_substitute_trace O args query) as Ht.
  destruct (sqlQuery_substitute O args query) as [[q|ps] tr]; cbn [result trace] in *; subst tr.
  - cbn [app emit emit_all result trace].
    rewrite filter_cons_False by (cbn; discriminate).
    rewrite filter_app, sqlQuery_lines_no_request. reflexivity.
  - reflexivity.
Qed.

Lemma sqlQuery_strings query args :
  forallb is_string_value args = true -> result (sqlQuery query args) = Returns tt.
Proof.
  intros Hs. unfold sqlQuery.
  destruct (sqlQuery_substitute_strings O args query Hs) as [q' ->].
  reflexivity.
Qed.

(** What [sctxQuery] hands to the driver is the query text and the
    argument list it was called with, once, whatever [envDebug] is. *)
Lemma sctxQuery_request t c envDebug query args :
  filter (fun e => is_driver_request e = true)
         (trace (sctxQuery (Some t) (Some c) envDebug query args))
  = [tx_QueryContext query args].
Proof.
  unfold sctxQuery, with_defer. cbn [trace].
  rewrite !filter_app.
  assert (Hd : filter (fun e => is_driver_request e = true)
                 (trace (if envDebug then sqlQuery query args else mret tt)) = [])
    by (destruct envDebug; [apply sqlQuery_no_request | reflexivity]).
  rewrite Hd. destruct (sql.QueryContext t c query args); reflexivity.
Qed.

Lemma sctxQuery_false_result pgstx pgctx query args :
  result (sctxQuery pgstx pgctx false query args)
  = match pgctx, pgstx with
    | Some c, Some t =>
      match sql.QueryContext t c query args with
      | inr err => Returns (None, Some err)
      | inl rows => Returns (Some rows, None)
      end
    | _, _ => Panics [NilDereference]
    end.
Proof.
  unfold sctxQuery, with_defer. cbn [result].
  destruct pgctx as [c|], pgstx as [t|]; try reflexivity.
  cbn. destruct (sql.QueryContext t c query args); reflexivity.
Qed.

Lemma sctxQuery_true_result pgstx pgctx query args :
  forallb is_string_value args = true ->
  result (sctxQuery pgstx pgctx true query args)
  = result (sctxQuery pgstx pgctx false query args).
Proof.
  intros Hs. unfold sctxQuery, with_defer. cbn [result].
  rewrite (sqlQuery_strings query args Hs).
  destruct pgctx as [c|], pgstx as [t|]; reflexivity.
Qed.

Lemma fetchRow_not_nil_nil rows : result (fetchRow rows) <> Returns (None, None).
Proof.
  unfold fetchRow, sql.Columns, sql.Scan.
  destruct (sql.columns rows) as [cols|e]; [|discriminate].
  destruct (sql.current rows) as [[vals|e]|]; [| destruct e; discriminate | discriminate].
  destruct (length vals =? length cols)%nat eqn:E; [|discriminate].
  apply Nat.eqb_eq in E. rewrite fetchRow_loop_spec by exact E. discriminate.
Qed.

Lemma QueryOne_rest_not_nil_nil r : result (QueryOne_rest r) <> Returns (None, None).
Proof.
  destruct r as [rows err]. unfold QueryOne_rest.
  destruct err; [discriminate|]. destruct rows as [rows|]; [|discriminate].
  destruct (sql.Next rows) as [more rows']. destruct more; [|discriminate].
  unfold with_defer. cbn [result emit].
  pose proof (fetchRow_not_nil_nil rows') as Hf.
  destruct (result (fetchRow rows')); [exact Hf | discriminate].
Qed.

Lemma bind_result_not {A B} (m : M A) (f : A -> M B) (b : B) :
  (forall a, result (f a) <> Returns b) -> result (m ≫= f) <> Returns b.
Proof.
  intros Hf. unfold mbind, M_bind. destruct (result m); [apply Hf | discriminate].
Qed.

Lemma QueryOne_never_nil_nil stx query args :
  result (PGTx_QueryOne stx query args) <> Returns (None, None)
  /\ result (PGTx_QueryOnePrint stx query args) <> Returns (None, None).
Proof.
  split; apply bind_result_not, QueryOne_rest_not_nil_nil.
Qed.

End Query.

Section NilTransaction.
Context `{Library}.





End NilTransaction.

(** * The claims *)

(** C1: if decoding any row of the cursor fails during [FetchAll], the call
    returns the empty record set and a nil error, whatever was decoded
    before the failing row: nothing of it is kept and the decode error is
    not passed on. *)
Theorem FetchAll_row_decode_failure `{Library} (stx : PGTx) (rows : sql.Rows)
        (pre : list sql.scan_outcome) (r : sql.scan_outcome) (post : list sql.scan_outcome)
        (row : PGRow) (e : error) :
  sql.pending rows = pre ++ r :: post ->
  result (fetchRow {| sql.columns := sql.columns rows; sql.current := Some r;
                      sql.pending := post |}) = Returns (row, Some e) ->
  result (PGTx_FetchAll stx rows) = Returns ([], None).
Proof.
  intros Hpending Hfail. unfold PGTx_FetchAll. rewrite Hpending.
  eapply FetchAll_loop_failure. exact Hfail.
Qed.

(** Three rows, the second of which cannot be scanned: nothing is returned. *)
Lemma FetchAll_row_decode_failure_witness :
  result (@PGTx_FetchAll plain_library empty_result_scope broken_cursor) = Returns ([], None).
Proof.
  apply (@FetchAll_row_decode_failure plain_library empty_result_scope broken_cursor
           [sql.Scanned [VInt64 1]] (sql.ScanFails (errorString "sql: Rows are closed"))
           [sql.Scanned [VInt64 3]] None
           (fmt_Errorf "FetchRow::Scan: sql: Rows are closed")).
  - reflexivity.
  - reflexivity.
Defined.

(** C2 (the code departs from the claim): on a query with an empty result
    set and an argument that is not a string, [QueryOne] returns the nil row
    with the empty-record error, while [QueryOnePrint] panics in the deferred
    logger and returns nothing. *)
Theorem QueryOnePrint_panics_on_int_argument `{Library} :
  result (PGTx_QueryOne empty_result_scope "SELECT id FROM t WHERE id = $1" [VInt64 42])
    = Returns (None, Some (errorString "empty record"))
  /\ result (PGTx_QueryOnePrint empty_result_scope "SELECT id FROM t WHERE id = $1" [VInt64 42])
     = Panics [TypeAssertion (VInt64 42) "string"].
Proof. split; reflexivity. Qed.

(** C3: after [Commit] and after [Rollback] the scope is marked closed,
    whether the transaction's own commit or rollback returned nil, returned
    an error, or could not be called at all; the call ends as the call of
    the transaction ends. *)
Theorem Commit_Rollback_mark_closed (stx : PGTx) :
  Closed (fst (PGTx_Commit stx)) = true
  /\ Closed (fst (PGTx_Rollback stx)) = true
  /\ snd (PGTx_Commit stx)
     = match tx stx with
       | Some t => Returns (snd (sql.Commit t))
       | None => Panics [NilDereference]
       end
  /\ snd (PGTx_Rollback stx)
     = match tx stx with
       | Some t => Returns (snd (sql.Rollback t))
       | None => Panics [NilDereference]
       end.
Proof.
  unfold PGTx_Commit, PGTx_Rollback. cbn [tx].
  destruct (tx stx) as [t|]; [|repeat split; reflexivity].
  destruct (sql.Commit t) as [t1 e1], (sql.Rollback t) as [t2 e2].
  repeat split; reflexivity.
Qed.




(** C5, as stated, fails: when two columns bear one name, an unrecognized
    value in the later one replaces the text of the earlier one, which is
    then no longer populated with its own value. *)
Lemma fetchRow_repeated_column_name :
  @fetchRow plain_library (cursor_at ["a"; "a"] [VInt64 1; VOther "int32"])
    = Run (Returns (Some {[ "a" := "" ]}, None))
          [Errorf "Reflect TypeOf: %s " [ArgString "int32"]]
  /\ fmt.Sprint_int64 1 = "1"
  /\ PGRow_index (Some {[ "a" := "" ]}) "a" <> "1".
Proof.
  split; [|split].
  - vm_compute. reflexivity.
  - reflexivity.
  - vm_compute. discriminate.
Qed.

(** C5 (amended): for a raw row with as many values as columns, [fetchRow]
    returns a row and a nil error; the keys of the row are exactly the
    column names; under each name that no later column repeats stands the
    value of that column rendered per type (int64 in decimal, float64 as
    [fmt.Sprint] prints it, a boolean as true or false, bytes and strings as
    they are, a timestamp in the layout RFC3339Nano, nil and any other type
    as the empty string); and the log holds one decode error for each value
    of another type, in column order, and nothing else. *)
Theorem fetchRow_decodes_every_column `{Library} (rows : sql.Rows) (cols : list string)
        (vals : list value) :
  sql.columns rows = inl cols -> sql.current rows = Some (sql.Scanned vals) ->
  length vals = length cols ->
  exists m,
    fetchRow rows
    = Run (Returns (Some m, None))
          (flat_map (fun v => match v with
                              | VOther ty => [Errorf "Reflect TypeOf: %s " [ArgString ty]]
                              | _ => []
                              end) vals)
    /\ (forall c, c ∈ cols <-> is_Some (m !! c))
    /\ (forall i c v,
           cols !! i = Some c -> vals !! i = Some v ->
           (forall j, (i < j)%nat -> cols !! j <> Some c) ->
           m !! c = Some (match v with
                          | VNil => EmptyString
                          | VInt64 n => fmt.Sprint_int64 n
                          | VFloat64 f => Sprint_float64 f
                          | VString s => s
                          | VBytes b => b
                          | VBool true => "true"
                          | VBool false => "false"
                          | VTime t => time.Format_RFC3339Nano t
                          | VOther _ => EmptyString
                          end)).
Proof.
  intros Hcols Hcur Hlen.
  exists (decoded cols vals ∅).
  rewrite (fetchRow_scanned rows cols vals Hcols Hcur Hlen).
  split; [|split].
  - f_equal. unfold decode_log. apply flat_map_ext. intros [] ; reflexivity.
  - intros c. split.
    + apply decoded_lookup_column. exact Hlen.
    + intros Hsome. destruct (decide (c ∈ cols)) as [Hin|Hout]; [exact Hin|].
      rewrite (decoded_lookup_other cols vals ∅ c Hout), lookup_empty in Hsome.
      destruct Hsome as [x Hx]. discriminate.
  - intros i c v Hc Hv Hlast.
    rewrite (decoded_lookup_last cols vals ∅ i c v Hc Hv Hlast).
    destruct v as [| | | | |[]| |]; reflexivity.
Qed.

(** A row of an integer and a value of another type. *)
Lemma fetchRow_decodes_every_column_witness :
  exists m,
    result (@fetchRow plain_library (cursor_at ["a"; "b"] [VInt64 7; VOther "int32"]))
      = Returns (Some m, None)
    /\ m !! "a" = Some "7" /\ m !! "b" = Some "".
Proof.
  destruct (@fetchRow_decodes_every_column plain_library
              (cursor_at ["a"; "b"] [VInt64 7; VOther "int32"])
              ["a"; "b"] [VInt64 7; VOther "int32"] eq_refl eq_refl eq_refl)
    as (m & Hm & _ & Hval).
  exists m. split; [rewrite Hm; reflexivity|]. split.
  - apply (Hval 0%nat "a" (VInt64 7) eq_refl eq_refl).
    intros j Hj. destruct j as [|[|j]]; [lia | discriminate ..].
  - apply (Hval 1%nat "b" (VOther "int32") eq_refl eq_refl).
    intros j Hj. destruct j as [|[|j]]; [lia | lia | discriminate].
Defined.

(** C6, as stated, fails: no reading of "resolves to a loopback address"
    under which the literal loopback address 127.0.0.1 resolves to itself
    agrees with the code, which gives that host the mode require. *)
Lemma getDSN_sslmode_ignores_loopback_address :
  ~ (exists resolves_to_loopback : string -> bool,
        resolves_to_loopback "127.0.0.1" = true
        /\ forall Getenv : environ,
            getDSN_sslmode Getenv = "disable" <-> resolves_to_loopback (Getenv PGHOST) = true).
Proof.
  intros (resolves & Hloopback & Hclaim).
  destruct (Hclaim (fun _ => "127.0.0.1")) as [_ Hback].
  specialize (Hback Hloopback). vm_compute in Hback. discriminate.
Qed.

(** C6 (amended): the SSL mode of the connection descriptor is disable if
    and only if the configured host name contains the text localhost, and
    require otherwise; that mode is the one written into the descriptor. *)
Theorem getDSN_sslmode_localhost (Getenv : environ) (appName : string) :
  (getDSN_sslmode Getenv = "disable"
   <-> exists pre post, Getenv PGHOST = pre +:+ "localhost" +:+ post)
  /\ (getDSN_sslmode Getenv = "require"
      <-> ~ exists pre post, Getenv PGHOST = pre +:+ "localhost" +:+ post)
  /\ getDSN Getenv appName
     = "host=" +:+ Getenv PGHOST +:+ " port=" +:+ Getenv PGPORT
        +:+ " user=" +:+ Getenv PGUSER +:+ " password=" +:+ Getenv PGPASSWORD
        +:+ " dbname=" +:+ Getenv PGDATABASE
        +:+ " sslmode=" +:+ getDSN_sslmode Getenv
        +:+ " application_name='" +:+ appName +:+ "'".
Proof.
  split; [|split]; [| |reflexivity].
  - rewrite <- strings_Contains_spec. unfold getDSN_sslmode.
    destruct (strings_Contains (Getenv PGHOST) "localhost"); split;
      first [reflexivity | discriminate].
  - rewrite <- strings_Contains_spec. unfold getDSN_sslmode.
    destruct (strings_Contains (Getenv PGHOST) "localhost"); split.
    + discriminate.
    + intros Hno. elim Hno. reflexivity.
    + discriminate.
    + reflexivity.
Qed.

(** C7 (the code departs from the claim): with ten arguments the
    placeholder [$10] is rendered as the first argument followed by a zero,
    because the pattern for [$1] matches inside it; and an argument that is
    not a string makes the logger panic.  The driver, in contrast, always
    receives the query text and the arguments as they were passed. *)
Theorem sqlQuery_placeholder_slips `{Library} :
  sqlQuery_substitute O
    [VString "a"; VString "b"; VString "c"; VString "d"; VString "e";
     VString "f"; VString "g"; VString "h"; VString "i"; VString "j"]
    "SELECT $10"
  = Run (Returns "SELECT 'a'0") []
  /\ result (sqlQuery "SELECT $1" [VInt64 7]) = Panics [TypeAssertion (VInt64 7) "string"]
  /\ (forall t c envDebug query args,
         filter (fun e => is_driver_request e = true)
                (trace (sctxQuery (Some t) (Some c) envDebug query args))
         = [tx_QueryContext query args]).
Proof.
  split; [|split].
  - vm_compute. reflexivity.
  - reflexivity.
  - intros. apply sctxQuery_request.
Qed.








(** * Further properties of the code *)

(** X10: [CreateChannel] returns, whatever the first event of the listener is,
    with a handle whose signal channel is open and empty and whose listener
    is open; the error it returns is the one of a failed first attempt. *)
Theorem CreateChannel_leaves_open_handle (Getenv : environ) (appTitle : string)
      (listen_answer : string -> option error) (ping_answer : option error)
      (e : pq.ListenerEventType) (err : option error) :
  result (PGClient_CreateChannel Getenv appTitle listen_answer ping_answer e err)
  = Returns ({| ln := pq.NewListener listen_answer ping_answer; fail := make_chan 2 |},
             match e with
             | pq.ListenerEventConnectionAttemptFailed => err
             | _ => None
             end).
Proof. destruct e, err; reflexivity. Qed.


(** X2: neither [QueryOne] nor [QueryOnePrint] ever returns the nil row
    together with the nil error, and the empty-record error differs from
    every error that wraps a driver error. *)
Theorem QueryOne_no_nil_row_without_error `{Library} (stx : PGTx) (query : string)
        (args : list value) :
  result (PGTx_QueryOne stx query args) <> Returns (None, None)
  /\ result (PGTx_QueryOnePrint stx query args) <> Returns (None, None)
  /\ forall err : error,
       fmt_Errorf ("QueryOne::" +:+ Error err) <> fmt_Errorf "empty record".
Proof.
  split; [|split]; [apply QueryOne_never_nil_nil .. |].
  intros err Heq. discriminate.
Qed.

(** X8: when every argument is a string, [QueryOnePrint] ends as
    [QueryOne] does. *)
Theorem QueryOnePrint_with_string_arguments `{Library} (stx : PGTx) (query : string)
        (args : list value) :
  forallb is_string_value args = true ->
  result (PGTx_QueryOnePrint stx query args) = result (PGTx_QueryOne stx query args).
Proof.
  intros Hs. unfold PGTx_QueryOnePrint, PGTx_QueryOne, mbind, M_bind.
  rewrite (sctxQuery_true_result (tx stx) (ctx stx) query args Hs).
  destruct (result (sctxQuery (tx stx) (ctx stx) false query args)); reflexivity.
Qed.

(** With a string argument and an empty result set, [QueryOnePrint] returns
    the empty-record error. *)
Lemma QueryOnePrint_with_string_arguments_witness :
  result (@PGTx_QueryOnePrint plain_library empty_result_scope
            "SELECT id FROM t WHERE name = $1" [VString "x"])
  = Returns (None, Some (errorString "empty record")).
Proof.
  rewrite (@QueryOnePrint_with_string_arguments plain_library empty_result_scope
             "SELECT id FROM t WHERE name = $1" [VString "x"] eq_refl).
  reflexivity.
Defined.



(** X7: a value decoded by [fetchRow] under a column name that no later
    column repeats is restored by the accessor of its type, under the
    conditions of the round trip of each type. *)
Theorem fetchRow_then_access_restores `{Library} (rows : sql.Rows) (cols : list string)
        (vals : list value) (i : nat) (column : string) :
  sql.columns rows = inl cols -> sql.current rows = Some (sql.Scanned vals) ->
  length vals = length cols ->
  cols !! i = Some column ->
  (forall j, (i < j)%nat -> cols !! j <> Some column) ->
  exists m,
    result (fetchRow rows) = Returns (Some m, None)
    /\ (forall n, vals !! i = Some (VInt64 n) -> - 2 ^ 63 <= n < 2 ^ 63 ->
                  PGRow_ToInt64 (Some m) column = Run (Returns n) [])
    /\ (forall b, vals !! i = Some (VBool b) ->
                  PGRow_ToBoolean (Some m) column = Run (Returns b) [])
    /\ (forall t, vals !! i = Some (VTime t) ->
                  minLocal <= time.unixSec t + time.offset t < maxLocal ->
                  0 <= time.nsec t < 10 ^ 9 ->
                  -86400 < time.offset t < 86400 -> time.offset t mod 60 = 0 ->
                  PGRow_ToTime (Some m) column = Run (Returns t) []).
Proof.
  intros Hcols Hcur Hlen Hi Hlast.
  exists (decoded cols vals ∅).
  rewrite (fetchRow_scanned rows cols vals Hcols Hcur Hlen).
  split; [reflexivity|].
  assert (Hidx : forall v, vals !! i = Some v ->
                           PGRow_index (Some (decoded cols vals ∅)) column = fst (decode v)).
  { intros v Hv. unfold PGRow_index.
    rewrite (decoded_lookup_last cols vals ∅ i column v Hi Hv Hlast). reflexivity. }
  repeat split.
  - intros n Hv Hn. unfold PGRow_ToInt64. rewrite (Hidx _ Hv). cbn [decode fst].
    rewrite (ParseInt_Sprint_int64 n Hn). reflexivity.
  - intros b Hv. unfold PGRow_ToBoolean. rewrite (Hidx _ Hv). destruct b; reflexivity.
  - intros t Hv Hloc Hns Hoff Hmod. unfold PGRow_ToTime. rewrite (Hidx _ Hv). cbn [decode fst].
    rewrite (Parse_Format t Hloc Hns Hoff Hmod). reflexivity.
Qed.

(** The integer column of a row of four columns is restored by [ToInt64]. *)
Lemma fetchRow_then_access_restores_witness :
  exists m,
    result (@fetchRow plain_library (cursor_at sample_columns sample_values))
      = Returns (Some m, None)
    /\ PGRow_ToInt64 (Some m) "i" = Run (Returns (-42)) [].
Proof.
  destruct (@fetchRow_then_access_restores plain_library
              (cursor_at sample_columns sample_values) sample_columns sample_values 0 "i"
              eq_refl eq_refl eq_refl eq_refl)
    as (m & Hm & Hint & _).
  { intros j Hj. destruct j as [|[|[|[|j]]]]; [lia | discriminate ..]. }
  exists m. split; [exact Hm|].
  apply Hint; [reflexivity | split; [discriminate | reflexivity]].
Defined.

Section FetchAllRows.

Context `{Library}.

Lemma FetchAll_loop_all (stx : PGTx) (cols : list string) (todo : list sql.scan_outcome)
      (acc : PGRecord) :
  Forall (fun r => exists vals, r = sql.Scanned vals /\ length vals = length cols) todo ->
  result (FetchAll_loop stx (inl cols) todo acc)
  = Returns (acc ++ map (decoded_row cols) todo, None).
Proof.
  intros Hall. revert acc. induction Hall as [|r todo (vals & -> & Hlen) _ IH]; intros acc.
  - cbn [FetchAll_loop map result mret M_ret]. rewrite app_nil_r. reflexivity.
  - cbn [FetchAll_loop]. unfold PGTx_FetchRow.
    rewrite (fetchRow_scanned {| sql.columns := inl cols;
                                 sql.current := Some (sql.Scanned vals);
                                 sql.pending := todo |} cols vals eq_refl eq_refl Hlen).
    rewrite bind_Run_Returns. cbn [result]. rewrite IH.
    cbn [map decoded_row]. rewrite <- app_assoc. reflexivity.
Qed.


End FetchAllRows.


(** ** The monad of calls *)

Lemma bind_assoc {A B C} (m : M A) (f : A -> M B) (g : B -> M C) :
  (m ≫= f) ≫= g = m ≫= (fun a => f a ≫= g).
Proof.
  destruct m as [[a|ps] tr]; [|reflexivity].
  unfold mbind, M_bind. cbn [result trace].
  destruct (f a) as [[b|ps] tr']; cbn [result trace]; [|reflexivity].
  rewrite app_assoc. reflexivity.
Qed.

Lemma bind_ext {A B} (m : M A) (f g : A -> M B) :
  (forall a, f a = g a) -> m ≫= f = m ≫= g.
Proof.
  intros Hfg. unfold mbind, M_bind. destruct (result m); [rewrite Hfg|]; reflexivity.
Qed.

Lemma bind_result {A B} (m : M A) (f : A -> M B) :
  result (m ≫= f)
  = match result m with
    | Returns a => result (f a)
    | Panics ps => Panics ps
    end.
Proof. unfold mbind, M_bind. destruct (result m); reflexivity. Qed.

(** ** [FetchOneColumn] *)

Section FetchColumn.

Context `{Library}.

Lemma FetchOneColumn_loop_FetchAll_loop (stx : PGTx) (cols : list string + error)
      (todo : list sql.scan_outcome) (columnName : string) (acc : PGRecord) :
  FetchOneColumn_loop stx cols todo columnName (map (fun r => PGRow_index r columnName) acc)
  = '(record, err) ← FetchAll_loop stx cols todo acc;
    mret (map (fun r => PGRow_index r columnName) record, err).
Proof.
  revert acc. induction todo as [|r todo IH]; intros acc; [reflexivity|].
  cbn [FetchOneColumn_loop FetchAll_loop]. rewrite bind_assoc.
  apply bind_ext. intros [data [e|]]; [reflexivity|].
  rewrite <- IH, map_app. reflexivity.
Qed.

(** X11: [FetchOneColumn] returns, and logs, what [FetchAll] does on the same
    cursor, each row replaced by its text under the column name: the empty
    text where a row has no such column, nothing at all when a row
    fails to decode. *)
Theorem FetchOneColumn_is_a_column_of_FetchAll (stx : PGTx) (rows : sql.Rows)
        (columnName : string) :
  PGTx_FetchOneColumn stx rows columnName
  = '(record, err) ← PGTx_FetchAll stx rows;
    mret (map (fun r => PGRow_index r columnName) record, err).
Proof.
  unfold PGTx_FetchOneColumn, PGTx_FetchAll.
  apply (FetchOneColumn_loop_FetchAll_loop stx _ _ columnName []).
Qed.

Lemma decoded_row_missing (cols : list string) (r : sql.scan_outcome) (columnName : string) :
  columnName ∉ cols -> PGRow_index (decoded_row cols r) columnName = EmptyString.
Proof.
  intros Hout. destruct r as [vals|e]; [|reflexivity].
  unfold decoded_row, PGRow_index.
  rewrite (decoded_lookup_other cols vals ∅ columnName Hout), lookup_empty. reflexivity.
Qed.

(** X12: on a cursor whose rows all scan, [FetchOneColumn] returns one text
    for each row, in the order of the cursor, and a nil error; for a column
    name that is not among the columns of the result that text is empty in
    every row, and no error tells the caller so. *)
Theorem FetchOneColumn_every_row (stx : PGTx) (rows : sql.Rows) (cols : list string)
        (columnName : string) :
  sql.columns rows = inl cols ->
  Forall (fun r => exists vals, r = sql.Scanned vals /\ length vals = length cols)
         (sql.pending rows) ->
  result (PGTx_FetchOneColumn stx rows columnName)
  = Returns (map (fun r => PGRow_index (decoded_row cols r) columnName) (sql.pending rows),
             None)
  /\ (columnName ∉ cols ->
      result (PGTx_FetchOneColumn stx rows columnName)
      = Returns (replicate (length (sql.pending rows)) EmptyString, None)).
Proof.
  intros Hcols Hall.
  assert (Hres : result (PGTx_FetchOneColumn stx rows columnName)
                 = Returns (map (fun r => PGRow_index (decoded_row cols r) columnName)
                                (sql.pending rows), None)).
  { unfold PGTx_FetchOneColumn.
    rewrite (FetchOneColumn_loop_FetchAll_loop stx _ _ columnName []).
    rewrite Hcols, bind_result.
    rewrite (FetchAll_loop_all stx cols (sql.pending rows) [] Hall).
    cbn [result mret M_ret app]. rewrite map_map. reflexivity. }
  split; [exact Hres|].
  intros Hout. rewrite Hres. do 2 f_equal.
  clear Hres Hall. induction (sql.pending rows) as [|r todo IH]; [reflexivity|].
  cbn [map length replicate]. rewrite (decoded_row_missing cols r columnName Hout), IH.
  reflexivity.
Qed.

(** X13: when a row of the cursor fails to decode, [FetchOneColumn] returns
    the empty list and a nil error, whatever the rows before it held. *)
Theorem FetchOneColumn_row_decode_failure (stx : PGTx) (rows : sql.Rows)
        (columnName : string) (pre : list sql.scan_outcome) (r : sql.scan_outcome)
        (post : list sql.scan_outcome) (row : PGRow) (e : error) :
  sql.pending rows = pre ++ r :: post ->
  result (fetchRow {| sql.columns := sql.columns rows; sql.current := Some r;
                      sql.pending := post |}) = Returns (row, Some e) ->
  result (PGTx_FetchOneColumn stx rows columnName) = Returns ([], None).
Proof.
  intros Hpending Hfail. unfold PGTx_FetchOneColumn.
  rewrite (FetchOneColumn_loop_FetchAll_loop stx _ _ columnName []).
  rewrite Hpending, bind_result.
  pose proof (FetchAll_loop_failure stx (sql.columns rows) pre r post [] row e Hfail) as Hloop.
  unfold PGRecord in *. rewrite Hloop. reflexivity.
Qed.

(** ** [fetchRow]: what comes back with an error *)

(** X14: [fetchRow] always returns.  With a nil error the row is the decoded
    row of a scanned row; with an error the row is nil, except when [Scan]
    reports [sql.ErrNoRows], where it is the empty map; and every error
    message starts with [FetchRow::]. *)
Theorem fetchRow_row_or_error (rows : sql.Rows) :
  exists row err,
    result (fetchRow rows) = Returns (row, err)
    /\ (err = None ->
        exists cols vals,
          sql.columns rows = inl cols /\ sql.current rows = Some (sql.Scanned vals)
          /\ length vals = length cols /\ row = Some (decoded cols vals ∅))
    /\ (forall e, err = Some e ->
          (exists msg, e = errorString ("FetchRow::" +:+ msg))
          /\ (row = None
              \/ (row = Some ∅ /\ sql.current rows = Some (sql.ScanFails ErrNoRows)))).
Proof.
  unfold fetchRow, sql.Columns, sql.Scan.
  destruct (sql.columns rows) as [cols|ce].
  - destruct (sql.current rows) as [[vals|se]|].
    + destruct (length vals =? length cols)%nat eqn:E.
      * apply Nat.eqb_eq in E. rewrite fetchRow_loop_spec by exact E.
        rewrite bind_Run_Returns. cbn [result mret M_ret].
        eexists _, _. split; [reflexivity|]. split.
        -- intros _. exists cols, vals. repeat split; assumption || reflexivity.
        -- intros e He. discriminate.
      * eexists _, _. split; [reflexivity|]. split; [discriminate|].
        intros e [= <-]. split; [eexists; reflexivity | left; reflexivity].
    + destruct se; eexists _, _; (split; [reflexivity|]); (split; [discriminate|]);
        intros e' [= <-]; (split; [eexists; reflexivity|]);
        first [right; split; reflexivity | left; reflexivity].
    + eexists _, _. split; [reflexivity|]. split; [discriminate|].
      intros e [= <-]. split; [eexists; reflexivity | left; reflexivity].
  - eexists _, _. split; [reflexivity|]. split; [discriminate|].
    intros e [= <-]. split; [eexists; reflexivity | left; reflexivity].
Qed.

End FetchColumn.

(** Two rows of two columns, asked for a column that is not there. *)
Lemma FetchOneColumn_every_row_witness :
  result (@PGTx_FetchOneColumn plain_library refused_scope two_row_cursor "nmae")
  = Returns ([EmptyString; EmptyString], None).
Proof.
  refine (proj2 (@FetchOneColumn_every_row plain_library refused_scope two_row_cursor
                   ["id"; "name"] "nmae" eq_refl _) _).
  - repeat constructor; eexists; split; reflexivity.
  - intros Hin. repeat (apply elem_of_cons in Hin as [Hin|Hin]; [discriminate|]).
    apply elem_of_nil in Hin as [].
Defined.

(** Three rows, the second of which cannot be scanned. *)
Lemma FetchOneColumn_row_decode_failure_witness :
  result (@PGTx_FetchOneColumn plain_library empty_result_scope broken_cursor "n")
  = Returns ([], None).
Proof.
  apply (@FetchOneColumn_row_decode_failure plain_library empty_result_scope broken_cursor "n"
           [sql.Scanned [VInt64 1]] (sql.ScanFails (errorString "sql: Rows are closed"))
           [sql.Scanned [VInt64 3]] None
           (fmt_Errorf "FetchRow::Scan: sql: Rows are closed")).
  - reflexivity.
  - reflexivity.
Defined.

(** ** The accessors on what is not there *)

(** X15: on the nil row, on a row without the column, and on a column whose
    text is empty, which is what the decoder writes for NULL, [ToByte]
    returns no bytes, [ToBoolean] false, [ToInt64] zero and [ToTime] the
    zero time, each of the three parsers logging one syntax error: a
    missing column reads like a NULL one. *)
Theorem accessors_on_missing_column `{Library} (pg : PGRow) (name : string) :
  pg = None \/ (exists m, pg = Some m /\ (m !! name = None \/ m !! name = Some EmptyString)) ->
  PGRow_ToByte pg name = EmptyString
  /\ PGRow_ToBoolean pg name
     = Run (Returns false)
           [Errorf "PGRow.ToBoolean('%s'): %s"
                   [ArgString name; ArgNumError (strconv.syntaxError "ParseBool" "")]]
  /\ PGRow_ToInt64 pg name
     = Run (Returns 0)
           [Errorf "PGRow.ToInt64('%s', 0, 64): %s"
                   [ArgString name; ArgNumError (strconv.syntaxError "ParseInt" "")]]
  /\ PGRow_ToTime pg name
     = Run (Returns time.zero)
           [Errorf "PGRow.ToTime('%s'): %s"
                   [ArgString name;
                    ArgParseError {| time.Layout := time.RFC3339Nano; time.Value := "" |}]].
Proof.
  intros Hmissing.
  assert (Hidx : PGRow_index pg name = EmptyString).
  { destruct Hmissing as [-> | (m & -> & [Hm | Hm])]; unfold PGRow_index;
      [reflexivity | rewrite Hm; reflexivity ..]. }
  unfold PGRow_ToByte, PGRow_ToBoolean, PGRow_ToInt64, PGRow_ToTime. rewrite Hidx.
  repeat split; reflexivity.
Qed.

(** A row decoded from a NULL column, read under that column and under a
    name it does not have. *)
Lemma accessors_on_missing_column_witness :
  result (@fetchRow plain_library (cursor_at ["n"] [VNil])) = Returns (Some {[ "n" := "" ]}, None)
  /\ result (PGRow_ToInt64 (Some {[ "n" := "" ]}) "n") = Returns 0
  /\ result (PGRow_ToInt64 (Some {[ "n" := "" ]}) "m") = Returns 0.
Proof.
  split; [vm_compute; reflexivity|]. split.
  - destruct (@accessors_on_missing_column plain_library (Some {[ "n" := "" ]}) "n")
      as (_ & _ & Hint & _); [|rewrite Hint; reflexivity].
    right. eexists. split; [reflexivity|]. right. vm_compute. reflexivity.
  - destruct (@accessors_on_missing_column plain_library (Some {[ "n" := "" ]}) "m")
      as (_ & _ & Hint & _); [|rewrite Hint; reflexivity].
    right. eexists. split; [reflexivity|]. left. vm_compute. reflexivity.
Defined.

(** X16: the bytes of a string or byte-sequence column, decoded by [fetchRow]
    under a column name that no later column repeats, come back from
    [ToByte] as they were. *)
Theorem fetchRow_then_ToByte_restores `{Library} (rows : sql.Rows) (cols : list string)
        (vals : list value) (i : nat) (column : string) (s : string) :
  sql.columns rows = inl cols -> sql.current rows = Some (sql.Scanned vals) ->
  length vals = length cols ->
  cols !! i = Some column ->
  (forall j, (i < j)%nat -> cols !! j <> Some column) ->
  vals !! i = Some (VString s) \/ vals !! i = Some (VBytes s) ->
  exists m,
    fetchRow rows = Run (Returns (Some m, None)) (decode_log vals)
    /\ PGRow_ToByte (Some m) column = s.
Proof.
  intros Hcols Hcur Hlen Hi Hlast Hv.
  exists (decoded cols vals ∅).
  split; [apply (fetchRow_scanned rows cols vals Hcols Hcur Hlen)|].
  unfold PGRow_ToByte, PGRow_index.
  destruct Hv as [Hv | Hv];
    rewrite (decoded_lookup_last cols vals ∅ i column _ Hi Hv Hlast); reflexivity.
Qed.

(** A byte-sequence column between two others. *)
Lemma fetchRow_then_ToByte_restores_witness :
  exists m,
    result (@fetchRow plain_library
              (cursor_at ["id"; "payload"; "ok"] [VInt64 1; VBytes "{}"; VBool true]))
      = Returns (Some m, None)
    /\ PGRow_ToByte (Some m) "payload" = "{}"%string.
Proof.
  destruct (@fetchRow_then_ToByte_restores plain_library
              (cursor_at ["id"; "payload"; "ok"] [VInt64 1; VBytes "{}"; VBool true])
              ["id"; "payload"; "ok"] [VInt64 1; VBytes "{}"; VBool true] 1 "payload" "{}"
              eq_refl eq_refl eq_refl eq_refl)
    as (m & Hm & Hbytes).
  - intros j Hj. destruct j as [|[|[|j]]]; [lia | lia | discriminate ..].
  - right. reflexivity.
  - exists m. split; [rewrite Hm; reflexivity | exact Hbytes].
Defined.

(** ** The query methods and their Print variants *)

Section Statements.

Context `{Library}.

Lemma sctxExecute_request t c envDebug query args :
  filter (fun e => is_driver_request e = true)
         (trace (sctxExecute (Some t) (Some c) envDebug query args))
  = [tx_ExecContext query args].
Proof.
  unfold sctxExecute, with_defer. cbn [trace].
  rewrite !filter_app.
  assert (Hd : filter (fun e => is_driver_request e = true)
                 (trace (if envDebug then sqlQuery query args else mret tt)) = [])
    by (destruct envDebug; [apply sqlQuery_no_request | reflexivity]).
  rewrite Hd. destruct (sql.ExecContext t c query args); reflexivity.
Qed.

Lemma sctxExecute_false_result pgstx pgctx query args :
  result (sctxExecute pgstx pgctx false query args)
  = match pgctx, pgstx with
    | Some c, Some t => Returns (sql.ExecContext t c query args)
    | _, _ => Panics [NilDereference]
    end.
Proof.
  unfold sctxExecute, with_defer. cbn [result].
  destruct pgctx as [c|], pgstx as [t|]; try reflexivity.
  cbn. destruct (sql.ExecContext t c query args); reflexivity.
Qed.





(** X19: when every argument is a string, [QueryPrint] and [ExecutePrint]
    end as [Query] and [Execute] do, and their trace is the trace of the
    plain method followed by the lines of the logger, none of which is a
    request to the transaction. *)
Theorem Print_variants_add_only_log_lines (stx : PGTx) (query : string) (args : list value) :
  forallb is_string_value args = true ->
  (result (PGTx_QueryPrint stx query args) = result (PGTx_Query stx query args)
   /\ trace (PGTx_QueryPrint stx query args)
      = trace (PGTx_Query stx query args) ++ trace (sqlQuery query args))
  /\ (result (PGTx_ExecutePrint stx query args) = result (PGTx_Execute stx query args)
      /\ trace (PGTx_ExecutePrint stx query args)
         = trace (PGTx_Execute stx query args) ++ trace (sqlQuery query args))
  /\ filter (fun e => is_driver_request e = true) (trace (sqlQuery query args)) = [].
Proof.
  intros Hs. split; [|split]; [| |apply sqlQuery_no_request].
  - split; [apply sctxQuery_true_result, Hs|].
    unfold PGTx_QueryPrint, PGTx_Query, sctxQuery, with_defer. cbn [trace mret M_ret].
    rewrite app_nil_r. reflexivity.
  - split.
    + unfold PGTx_ExecutePrint, PGTx_Execute, sctxExecute, with_defer. cbn [result].
      rewrite (sqlQuery_strings query args Hs).
      destruct (ctx stx) as [c|], (tx stx) as [t|]; reflexivity.
    + unfold PGTx_ExecutePrint, PGTx_Execute, sctxExecute, with_defer. cbn [trace mret M_ret].
      rewrite app_nil_r. reflexivity.
Qed.

(** ** A scope that was ended *)

(** X5: after [Commit] or [Rollback] on a scope with a transaction and a
    live context, the scope is marked closed, yet no method consults the
    mark: every later call still goes to the transaction, which refuses
    it as finished.  [Commit], [Rollback] and [Execute] return that error,
    [Query] returns it with a nil cursor, [QueryOne] wraps it behind its
    prefix. *)
Theorem ended_scope_is_refused_by_the_transaction (how : terminal) (stx : PGTx) (t : sql.Tx)
        (query : string) (args : list value) :
  live_scope stx t ->
  Closed (fst (PGTx_end how stx)) = true
  /\ (forall again, snd (PGTx_end again (fst (PGTx_end how stx))) = Returns (Some ErrTxDone))
  /\ result (PGTx_Execute (fst (PGTx_end how stx)) query args) = Returns (Some ErrTxDone)
  /\ result (PGTx_Query (fst (PGTx_end how stx)) query args) = Returns (None, Some ErrTxDone)
  /\ result (PGTx_QueryOne (fst (PGTx_end how stx)) query args)
     = Returns (None,
                Some (errorString
                        "QueryOne::sql: transaction has already been committed or rolled back"))
  /\ filter (fun e => is_driver_request e = true)
            (trace (PGTx_Execute (fst (PGTx_end how stx)) query args))
     = [tx_ExecContext query args].
Proof.
  intros [Htx Hctx].
  assert (Hend : exists t', fst (PGTx_end how stx)
                            = {| Closed := true; tx := Some t'; ctx := Some sql.Background |}
                            /\ sql.done t' = true).
  { destruct how; cbn [PGTx_end]; unfold PGTx_Commit, PGTx_Rollback; cbn [tx ctx Closed];
      rewrite Htx, Hctx; unfold sql.Commit, sql.Rollback;
      destruct (sql.done t) eqn:Hd; cbn [fst]; eexists; (split; [reflexivity|]);
      first [exact Hd | reflexivity]. }
  destruct Hend as (t' & -> & Hdone).
  split; [reflexivity|]. split; [|split; [|split; [|split]]].
  - intros []; cbn [PGTx_end]; unfold PGTx_Commit, PGTx_Rollback; cbn [tx];
      unfold sql.Commit, sql.Rollback; rewrite Hdone; reflexivity.
  - unfold PGTx_Execute. rewrite sctxExecute_false_result. cbn [tx ctx].
    unfold sql.ExecContext. rewrite Hdone. reflexivity.
  - unfold PGTx_Query. rewrite sctxQuery_false_result. cbn [tx ctx].
    unfold sql.QueryContext. rewrite Hdone. reflexivity.
  - unfold PGTx_QueryOne. rewrite bind_result, sctxQuery_false_result. cbn [tx ctx].
    unfold sql.QueryContext. rewrite Hdone. reflexivity.
  - unfold PGTx_Execute. cbn [tx ctx]. apply sctxExecute_request.
Qed.

(** ** The cursor of [QueryOne] *)

Lemma sctxQuery_false pgstx pgctx query args :
  sctxQuery pgstx pgctx false query args
  = match pgctx, pgstx with
    | Some c, Some t =>
      Run (Returns match sql.QueryContext t c query args with
                   | inr err => (None, Some err)
                   | inl rows => (Some rows, None)
                   end)
          [tx_QueryContext query args; EstimatedPrint "Query"]
    | _, _ => Run (Panics [NilDereference]) [EstimatedPrint "Query"]
    end.
Proof.
  unfold sctxQuery, with_defer.
  destruct pgctx as [c|], pgstx as [t|]; try reflexivity.
  cbn. destruct (sql.QueryContext t c query args); reflexivity.
Qed.

Lemma decode_log_no_Close vals :
  filter (fun e => is_rows_Close e = true) (decode_log vals) = [].
Proof.
  induction vals as [|v vals IH]; [reflexivity|].
  unfold decode_log in *. cbn [flat_map]. rewrite filter_app, IH.
  destruct v; reflexivity.
Qed.

Lemma fetchRow_no_Close rows :
  filter (fun e => is_rows_Close e = true) (trace (fetchRow rows)) = [].
Proof.
  unfold fetchRow, sql.Columns, sql.Scan.
  destruct (sql.columns rows) as [cols|e]; [|reflexivity].
  destruct (sql.current rows) as [[vals|e]|]; [| destruct e; reflexivity | reflexivity].
  destruct (length vals =? length cols)%nat eqn:E; [|reflexivity].
  apply Nat.eqb_eq in E. rewrite fetchRow_loop_spec by exact E.
  rewrite bind_Run_Returns. cbn [trace mret M_ret]. rewrite app_nil_r.
  apply decode_log_no_Close.
Qed.

(** X21: [QueryOne] closes the cursor exactly once when the query gave a
    first row, also when that row then fails to decode; it does not close
    it when the result set is empty or the query failed.  [Query] never
    closes the cursor it returns. *)
Theorem QueryOne_closes_the_cursor_it_read (stx : PGTx) (query : string) (args : list value) :
  filter (fun e => is_rows_Close e = true) (trace (PGTx_QueryOne stx query args))
  = match ctx stx, tx stx with
    | Some c, Some t =>
      match sql.QueryContext t c query args with
      | inl rows =>
        match sql.pending rows with
        | [] => []
        | _ :: _ => [rows_Close]
        end
      | inr _ => []
      end
    | _, _ => []
    end
  /\ filter (fun e => is_rows_Close e = true) (trace (PGTx_Query stx query args)) = [].
Proof.
  split.
  - unfold PGTx_QueryOne. rewrite sctxQuery_false.
    destruct (ctx stx) as [c|], (tx stx) as [t|]; try reflexivity.
    rewrite bind_Run_Returns. cbn [trace].
    destruct (sql.QueryContext t c query args) as [rows|err]; [|reflexivity].
    cbn [QueryOne_rest]. unfold sql.Next.
    destruct (sql.pending rows) as [|r rest]; [reflexivity|].
    cbn [negb]. unfold with_defer. cbn [trace emit app].
    rewrite !filter_cons_False by (cbn; discriminate).
    rewrite filter_app, fetchRow_no_Close. reflexivity.
  - unfold PGTx_Query. rewrite sctxQuery_false.
    destruct (ctx stx) as [c|], (tx stx) as [t|]; reflexivity.
Qed.

End Statements.


(** An update with one string argument. *)
Lemma Print_variants_add_only_log_lines_witness :
  result (@PGTx_ExecutePrint plain_library select_1_scope
            "UPDATE t SET ok = true WHERE name = $1" [VString "a"])
  = Returns None.
Proof.
  destruct (@Print_variants_add_only_log_lines plain_library select_1_scope
              "UPDATE t SET ok = true WHERE name = $1" [VString "a"] eq_refl)
    as (_ & [Hresult _] & _).
  rewrite Hresult. reflexivity.
Defined.

(** A scope that was committed: a rollback and a statement after it. *)
Lemma ended_scope_is_refused_by_the_transaction_witness :
  snd (PGTx_Rollback (fst (PGTx_Commit select_1_scope))) = Returns (Some ErrTxDone)
  /\ result (@PGTx_Execute plain_library (fst (PGTx_Commit select_1_scope)) "DELETE FROM t" [])
     = Returns (Some ErrTxDone).
Proof.
  destruct (@ended_scope_is_refused_by_the_transaction plain_library ByCommit select_1_scope
              select_1_tx "DELETE FROM t" [] (conj eq_refl eq_refl))
    as (_ & Hagain & Hexec & _).
  split; [exact (Hagain ByRollback) | exact Hexec].
Defined.

(** ** The notification handle after a failed [Listen] *)

(** X20: when the subscription fails, [Listen] returns the error and leaves
    the listener closed and the signal channel as it was; from then on
    [Ping] and every further [Listen] answer that the listener is closed,
    and [Close] still closes the signal channel but returns that error
    instead of nil. *)
Theorem Listen_failure_closes_the_listener (pg : PGNotify) (channelName : string) (err : error) :
  pq.Listen (ln pg) channelName = Some err ->
  snd (PGNotify_Listen pg channelName)
  = Run (Returns (Some err)) [Infof "LISTEN channel '%s'" [ArgString channelName]]
  /\ fail (fst (PGNotify_Listen pg channelName)) = fail pg
  /\ pq.isClosed (ln (fst (PGNotify_Listen pg channelName))) = true
  /\ PGNotify_Ping (fst (PGNotify_Listen pg channelName)) = Some errListenerClosed
  /\ (forall again,
         result (snd (PGNotify_Listen (fst (PGNotify_Listen pg channelName)) again))
         = Returns (Some errListenerClosed))
  /\ (chan_closed (fail pg) = false ->
      snd (PGNotify_Close (fst (PGNotify_Listen pg channelName)))
      = Returns (Some errListenerClosed)
      /\ chan_closed (fail (fst (PGNotify_Close (fst (PGNotify_Listen pg channelName)))))
         = true).
Proof.
  intros Hfail.
  assert (Hclosed : pq.isClosed (fst (pq.Close (ln pg))) = true)
    by (unfold pq.Close; destruct (pq.isClosed (ln pg)) eqn:E; [exact E | reflexivity]).
  unfold PGNotify_Listen at 1 2 3 4. rewrite Hfail. cbn [fst snd ln fail].
  split; [reflexivity|]. split; [reflexivity|]. split; [exact Hclosed|].
  split; [unfold PGNotify_Ping, pq.Ping; cbn [ln]; rewrite Hclosed; reflexivity|].
  split.
  - intros again. unfold PGNotify_Listen. rewrite Hfail. cbn [fst ln].
    unfold pq.Listen at 1. rewrite Hclosed. reflexivity.
  - intros Hopen. unfold PGNotify_Listen. rewrite Hfail. cbn [fst].
    unfold PGNotify_Close, chan_close. cbn [ln fail]. rewrite Hopen.
    unfold pq.Close at 1 3. rewrite Hclosed. split; reflexivity.
Qed.

(** A server that refuses the subscription: the handle is dead afterwards. *)
Lemma Listen_failure_closes_the_listener_witness :
  result (snd (PGNotify_Listen refused_channel "jobs"))
  = Returns (Some (errorString "pq: permission denied"))
  /\ PGNotify_Ping (fst (PGNotify_Listen refused_channel "jobs")) = Some errListenerClosed
  /\ snd (PGNotify_Close (fst (PGNotify_Listen refused_channel "jobs")))
     = Returns (Some errListenerClosed).
Proof.
  destruct (Listen_failure_closes_the_listener refused_channel "jobs"
              (errorString "pq: permission denied") eq_refl)
    as (Hret & _ & _ & Hping & _ & Hclose).
  split; [rewrite Hret; reflexivity|]. split; [exact Hping|].
  exact (proj1 (Hclose eq_refl)).
Defined.

(** ** The logger: indentation and placeholders *)

(** X22: [leadingSpace] counts the spaces and tabs a line starts with: the
    line is that many blank bytes followed by a rest that is empty or
    starts with a byte that is neither. *)
Theorem leadingSpace_counts_the_blank_prefix (line : string) :
  exists blanks rest,
    line = blanks +:+ rest
    /\ leadingSpace line = str_len blanks
    /\ str_forallb is_blank blanks = true
    /\ match rest with
       | String c _ => is_blank c = false
       | EmptyString => True
       end.
Proof.
  induction line as [|c line (blanks & rest & Hline & Hcount & Hblank & Hrest)].
  - exists EmptyString, EmptyString. repeat split.
  - cbn [leadingSpace]. fold (is_blank c). destruct (is_blank c) eqn:Hc.
    + exists (String c blanks), rest. rewrite str_app_cons, <- Hline.
      split; [reflexivity|]. split.
      * rewrite Hcount. unfold str_len. cbn [String.length]. lia.
      * cbn [str_forallb]. rewrite Hc, Hblank. split; [reflexivity | exact Hrest].
    + exists EmptyString, (String c line). repeat split. exact Hc.
Qed.

Lemma HasPrefix_nil s : strings_HasPrefix s EmptyString = true.
Proof. destruct s; reflexivity. Qed.

Lemma Contains_dollar_cons c s :
  strings_Contains (String c s) "$" = (byte c =? byte "$") || strings_Contains s "$".
Proof. cbn [strings_Contains strings_HasPrefix]. rewrite HasPrefix_nil, andb_true_r. reflexivity. Qed.

Lemma Contains_dollar_app s t :
  strings_Contains (s +:+ t) "$" = strings_Contains s "$" || strings_Contains t "$".
Proof.
  induction s as [|c s IH]; [reflexivity|].
  rewrite str_app_cons, !Contains_dollar_cons, IH, orb_assoc. reflexivity.
Qed.

(** A pattern that starts with a dollar sign passes over text without one. *)
Lemma replace_literal_no_dollar lit new s t :
  strings_Contains s "$" = false ->
  replace_literal (String "$" lit) new (s +:+ t) O
  = s +:+ replace_literal (String "$" lit) new t O.
Proof.
  induction s as [|c s IH]; intros Hs; [reflexivity|].
  rewrite Contains_dollar_cons in Hs. apply orb_false_elim in Hs as [Hc Hs].
  rewrite !str_app_cons. cbn [replace_literal strings_HasPrefix].
  rewrite Hc. cbn [andb]. rewrite IH by exact Hs. reflexivity.
Qed.

Lemma byte_digit_char k : (k <= 9)%nat -> byte (digit_char k) = 48 + Z.of_nat k.
Proof.
  intros Hk. unfold digit_char. change (byte "0") with 48. apply byte_chr. lia.
Qed.

(** At a placeholder, the pattern of one digit matches exactly its own. *)
Lemma replace_literal_placeholder j k new t :
  (j <= 9)%nat -> (k <= 9)%nat ->
  replace_literal (piece_text (Placeholder j)) new (piece_text (Placeholder k) +:+ t) O
  = (if (j =? k)%nat then new else piece_text (Placeholder k))
      +:+ replace_literal (piece_text (Placeholder j)) new t O.
Proof.
  intros Hj Hk. cbn [piece_text]. rewrite !str_app_cons, str_app_nil_l.
  cbn [replace_literal strings_HasPrefix String.length Nat.sub].
  rewrite HasPrefix_nil, !byte_digit_char by assumption.
  change (byte "$" =? byte "$") with true. cbn [andb]. rewrite andb_true_r.
  destruct (j =? k)%nat eqn:E.
  - apply Nat.eqb_eq in E. subst k. rewrite Z.eqb_refl. reflexivity.
  - apply Nat.eqb_neq in E.
    destruct (48 + Z.of_nat k =? 48 + Z.of_nat j) eqn:E'; [lia|].
    rewrite !str_app_cons, str_app_nil_l. f_equal.
    change (byte "$") with 36. destruct (48 + Z.of_nat k =? 36) eqn:E''; [lia|].
    reflexivity.
Qed.

Lemma pattern_of_one_digit i :
  (i < 9)%nat ->
  ("$" +:+ fmt.Sprint_int64 (Z.of_nat i + 1))%string = piece_text (Placeholder (S i)).
Proof.
  intros Hi. do 9 (destruct i as [|i]; [reflexivity|]). lia.
Qed.

Section Placeholders.

Context `{Library}.

Variable args : list value.
Hypothesis Hargs : Forall plain_argument args.

Lemma plain_argument_lookup i :
  (i < length args)%nat ->
  exists a, args !! i = Some (VString a) /\ strings_Contains a "$" = false.
Proof.
  intros Hi. destruct (lookup_lt_is_Some_2 args i Hi) as [v Hv].
  destruct (proj1 (Forall_lookup _ _) Hargs i v Hv) as (a & -> & Ha). eauto.
Qed.

Lemma quoted_no_dollar a :
  strings_Contains a "$" = false -> strings_Contains ("'" +:+ a +:+ "'") "$" = false.
Proof.
  intros Ha. rewrite !Contains_dollar_app, Ha. reflexivity.
Qed.

(** A placeholder that has its argument filled in holds no dollar sign. *)
Lemma filled_no_dollar k :
  (1 <= k <= length args)%nat ->
  strings_Contains (filled_piece args (Placeholder k)) "$" = false.
Proof.
  intros Hk. destruct (plain_argument_lookup (k - 1)) as (a & Ha & Hd); [lia|].
  cbn [filled_piece]. rewrite Ha. apply quoted_no_dollar, Hd.
Qed.

(** One pass of the substitution loop fills in its own placeholder and
    nothing else. *)
Lemma substitute_pass i a pieces :
  Forall plain_piece pieces -> args !! i = Some (VString a) ->
  regexp_ReplaceAllString ("$" +:+ fmt.Sprint_int64 (Z.of_nat i + 1))
                          (str_concat (map (partly_filled i args) pieces))
                          ("'" +:+ a +:+ "'")
  = str_concat (map (partly_filled (S i) args) pieces).
Proof.
  intros Hpieces Ha.
  assert (Hi : (i < length args)%nat) by (apply lookup_lt_is_Some; eauto).
  destruct (plain_argument_lookup i Hi) as (a' & Ha' & Hd).
  rewrite Ha in Ha'. injection Ha' as <-.
  unfold regexp_ReplaceAllString. rewrite (quoted_no_dollar a Hd).
  destruct (Nat.lt_ge_cases i 9) as [Hlt | Hge].
  - rewrite (pattern_of_one_digit i Hlt).
    induction Hpieces as [|p pieces Hp _ IH]; [reflexivity|].
    cbn [map str_concat]. destruct p as [s|k]; cbn [plain_piece] in Hp.
    + cbn [partly_filled]. change (piece_text (Placeholder (S i))) with
        (String "$" (String (digit_char (S i)) EmptyString)) at 1.
      rewrite replace_literal_no_dollar by exact Hp.
      f_equal. exact IH.
    + cbn [partly_filled]. destruct (k <=? i)%nat eqn:Ek.
      * apply Nat.leb_le in Ek.
        rewrite (proj2 (Nat.leb_le k (S i))) by lia.
        change (piece_text (Placeholder (S i))) with
          (String "$" (String (digit_char (S i)) EmptyString)) at 1.
        rewrite replace_literal_no_dollar by (apply filled_no_dollar; lia).
        f_equal. exact IH.
      * apply Nat.leb_gt in Ek.
        rewrite replace_literal_placeholder by lia. rewrite IH. f_equal.
        destruct (S i =? k)%nat eqn:E.
        -- apply Nat.eqb_eq in E. subst k. rewrite Nat.leb_refl.
           cbn [filled_piece]. rewrite Nat.sub_1_r. cbn [Nat.pred]. rewrite Ha. reflexivity.
        -- apply Nat.eqb_neq in E. rewrite (proj2 (Nat.leb_gt k (S i))) by lia. reflexivity.
  - change ("$" +:+ fmt.Sprint_int64 (Z.of_nat i + 1))%string
      with (String "$" (fmt.Sprint_int64 (Z.of_nat i + 1))).
    induction Hpieces as [|p pieces Hp _ IH]; [reflexivity|].
    cbn [map str_concat]. destruct p as [s|k]; cbn [plain_piece] in Hp.
    + cbn [partly_filled]. rewrite replace_literal_no_dollar by exact Hp. f_equal. exact IH.
    + cbn [partly_filled].
      rewrite (proj2 (Nat.leb_le k i)), (proj2 (Nat.leb_le k (S i))) by lia.
      rewrite replace_literal_no_dollar by (apply filled_no_dollar; lia).
      f_equal. exact IH.
Qed.

Lemma partly_filled_all i pieces :
  Forall plain_piece pieces -> (length args <= i)%nat ->
  map (partly_filled i args) pieces = map (filled_piece args) pieces.
Proof.
  intros Hpieces Hi. apply map_ext_Forall. eapply Forall_impl; [exact Hpieces|].
  intros [s|k] Hp; [reflexivity|]. cbn [plain_piece] in Hp. cbn [partly_filled].
  destruct (k <=? i)%nat eqn:Ek; [reflexivity|]. apply Nat.leb_gt in Ek.
  cbn [filled_piece]. rewrite lookup_ge_None_2 by lia. reflexivity.
Qed.

Lemma substitute_from i rest pieces :
  Forall plain_piece pieces -> drop i args = rest ->
  sqlQuery_substitute i rest (str_concat (map (partly_filled i args) pieces))
  = Run (Returns (filled_text args pieces)) [].
Proof.
  intros Hpieces. revert i. induction rest as [|v rest IH]; intros i Hdrop.
  - cbn [sqlQuery_substitute]. unfold filled_text.
    rewrite partly_filled_all; [reflexivity | exact Hpieces |].
    apply drop_nil_inv in Hdrop. lia.
  - assert (Hv : args !! i = Some v).
    { rewrite <- (Nat.add_0_r i), <- lookup_drop, Hdrop. reflexivity. }
    destruct (proj1 (Forall_lookup _ _) Hargs i v Hv) as (a & -> & Ha).
    cbn [sqlQuery_substitute]. rewrite (substitute_pass i a pieces Hpieces Hv).
    apply IH. rewrite (drop_S _ _ _ Hv) in Hdrop. injection Hdrop as ->. reflexivity.
Qed.

(** X23: when the query holds no dollar signs other than placeholders of one
    digit, [$1] to [$9], and every argument is a string without a dollar
    sign, the text the logger renders is the query with each placeholder
    that has an argument replaced by that argument in single quotes, and
    with everything else as it was; [sqlQuery] returns, and what it logs
    is the lines of that text between its two markers, followed by the
    elapsed time. *)
Theorem sqlQuery_substitute_fills_placeholders (pieces : list piece) :
  Forall plain_piece pieces ->
  sqlQuery_substitute O args (query_text pieces) = Run (Returns (filled_text args pieces)) []
  /\ sqlQuery (query_text pieces) args
     = Run (Returns tt)
           (logNone_Printf ("[Query]" +:+ String LF "") []
            :: sqlQuery_lines O 0
                 (strings_Split
                    (strings_ReplaceAll (filled_text args pieces)
                                        (String CR (String LF "")) (String LF ""))
                    LF)
            ++ [logNone_Printf (String LF "Elapsed time %d ms estimated.") [ArgEstimated];
                logNone_Printf (String LF "[Query]") []]).
Proof.
  intros Hpieces.
  assert (Hstart : map (partly_filled O args) pieces = map piece_text pieces).
  { apply map_ext_Forall. eapply Forall_impl; [exact Hpieces|].
    intros [s|k] Hp; [reflexivity|]. cbn [plain_piece] in Hp. cbn [partly_filled].
    rewrite (proj2 (Nat.leb_gt k 0)) by lia. reflexivity. }
  assert (Hfilled : sqlQuery_substitute O args (query_text pieces)
                    = Run (Returns (filled_text args pieces)) []).
  { unfold query_text. rewrite <- Hstart.
    apply substitute_from; [exact Hpieces | reflexivity]. }
  split; [exact Hfilled|].
  unfold sqlQuery. rewrite Hfilled. reflexivity.
Qed.

End Placeholders.

(** A query with two placeholders and its two arguments. *)
Lemma sqlQuery_substitute_fills_placeholders_witness :
  @sqlQuery_substitute plain_library O [VString "x"; VString "it's"]
    "SELECT id FROM t WHERE a = $1 AND b = $2 AND c = $1"
  = Run (Returns "SELECT id FROM t WHERE a = 'x' AND b = 'it's' AND c = 'x'") [].
Proof.
  refine (proj1 (@sqlQuery_substitute_fills_placeholders plain_library
                   [VString "x"; VString "it's"]
                   ltac:(repeat constructor; eexists; split; reflexivity)
                   [Text "SELECT id FROM t WHERE a = "; Placeholder 1; Text " AND b = ";
                    Placeholder 2; Text " AND c = "; Placeholder 1] _)).
  repeat constructor; cbn; lia.
Defined.

(** ** [strconv.ParseInt] at 32 bits on what [fmt.Sprint] prints *)

Lemma ParseUint_loop_digit_max maxVal d rest n :
  0 <= d <= 9 -> 0 <= n -> 0 <= maxVal < 2 ^ 64 ->
  strconv.ParseUint_loop 10 true cutoff10 maxVal (String (chr (byte "0" + d)) rest) n false
  = if n * 10 + d <=? maxVal
    then strconv.ParseUint_loop 10 true cutoff10 maxVal rest (n * 10 + d) false
    else strconv.LoopRange.
Proof.
  intros Hd Hn Hm. change (2 ^ 64) with 18446744073709551616 in Hm.
  cbn [strconv.ParseUint_loop].
  rewrite byte_chr by (change (byte "0") with 48; lia).
  change (byte "0") with 48. change (byte "9") with 57. change (byte "_") with 95.
  destruct (48 + d =? 95) eqn:E1; [lia|]. cbn [andb].
  destruct (48 <=? 48 + d) eqn:E2; [|lia].
  destruct (48 + d <=? 57) eqn:E3; [|lia]. cbn [andb].
  destruct (10 <=? 48 + d - 48) eqn:E4; [lia|].
  change cutoff10 with 1844674407370955162.
  destruct (1844674407370955162 <=? n) eqn:E5.
  - destruct (n * 10 + d <=? maxVal) eqn:E6; [lia | reflexivity].
  - unfold wrap64. change (2 ^ 64) with 18446744073709551616.
    rewrite (Z.mod_small (n * 10)) by lia.
    replace (48 + d - 48) with d by lia.
    destruct (n * 10 + d <=? maxVal) eqn:E6.
    + rewrite (Z.mod_small (n * 10 + d)) by lia.
      destruct (n * 10 + d <? n * 10) eqn:E7; [lia|].
      destruct (maxVal <? n * 10 + d) eqn:E8; [lia|]. reflexivity.
    + destruct ((n * 10 + d) mod 18446744073709551616 <? n * 10) eqn:E7; [reflexivity|].
      destruct (maxVal <? (n * 10 + d) mod 18446744073709551616) eqn:E8; [reflexivity|].
      exfalso. apply Z.ltb_ge in E7, E8. apply Z.leb_gt in E6. apply Z.leb_gt in E5.
      Z.to_euclidean_division_equations. lia.
Qed.

(** The digit loop of [ParseUint] on the digits [fmtInteger] writes: the
    value, or a range error when it is beyond the largest value. *)
Lemma ParseUint_loop_fmt_max maxVal f u rest :
  0 <= u < 10 ^ Z.of_nat (S f) -> u < 2 ^ 64 -> 0 <= maxVal < 2 ^ 64 ->
  strconv.ParseUint_loop 10 true cutoff10 maxVal (fmt.fmtInteger_loop (S f) u rest) 0 false
  = if u <=? maxVal
    then strconv.ParseUint_loop 10 true cutoff10 maxVal rest u false
    else strconv.LoopRange.
Proof.
  intros Hu Hb Hm. revert u rest Hu Hb. induction f as [|f IH]; intros u rest Hu Hb.
  - rewrite fmtInteger_loop_S. change (10 ^ Z.of_nat 1) with 10 in Hu.
    destruct (10 <=? u) eqn:E; [lia|].
    rewrite ParseUint_loop_digit_max by lia. reflexivity.
  - rewrite fmtInteger_loop_S. destruct (10 <=? u) eqn:E.
    + rewrite Nat2Z.inj_succ, Z.pow_succ_r in Hu by lia.
      rewrite IH by (Z.to_euclidean_division_equations; lia).
      rewrite digit_sub by lia.
      destruct (u / 10 <=? maxVal) eqn:E1.
      * rewrite ParseUint_loop_digit_max by (Z.to_euclidean_division_equations; lia).
        replace (u / 10 * 10 + u mod 10) with u by (Z.to_euclidean_division_equations; lia).
        reflexivity.
      * destruct (u <=? maxVal) eqn:E2; [|reflexivity].
        exfalso. apply Z.leb_gt in E1. apply Z.leb_le in E2.
        Z.to_euclidean_division_equations. lia.
    + rewrite ParseUint_loop_digit_max by lia. reflexivity.
Qed.

Lemma ParseUint_decimal_32 u :
  0 <= u < 2 ^ 64 ->
  strconv.ParseUint (fmt.fmtInteger_loop 20 u EmptyString) 0 32
  = if u <=? maxVal32 then (u, None)
    else (maxVal32,
          Some (strconv.rangeError "ParseUint" (fmt.fmtInteger_loop 20 u EmptyString))).
Proof.
  intros Hu.
  assert (H20 : u < 10 ^ Z.of_nat 20)
    by (change (2 ^ 64) with 18446744073709551616 in Hu;
        change (10 ^ Z.of_nat 20) with 100000000000000000000; lia).
  destruct (Z.eq_dec u 0) as [-> | Hnz]; [reflexivity|].
  destruct (fmtInteger_loop_head 19 u EmptyString ltac:(lia)) as (c & s' & Hs & Hc).
  pose proof (ParseUint_loop_fmt_max maxVal32 19 u EmptyString ltac:(lia) ltac:(lia)
                ltac:(split; [discriminate | reflexivity])) as Hloop.
  rewrite Hs in *. unfold strconv.ParseUint.
  change (0 =? 0) with true. change ((2 <=? 0) && (0 <=? 36)) with false. cbv iota.
  change (byte "0") with 48.
  destruct (byte c =? 48) eqn:E; [lia|].
  change (negb (32 =? 0) && ((32 <? 0) || (64 <? 32))) with false. cbv iota.
  change (32 =? 0) with false. cbv iota zeta.
  fold cutoff10. fold maxVal32. rewrite Hloop.
  destruct (u <=? maxVal32); reflexivity.
Qed.

(** [strconv.ParseInt(s, 0, 32)] on an int64 printed by [fmt.Sprint]:
    the number when it is an int32, the nearest int32 and a range error
    otherwise. *)
Lemma ParseInt_Sprint_int32 v :
  - 2 ^ 63 <= v < 2 ^ 63 ->
  strconv.ParseInt (fmt.Sprint_int64 v) 0 32
  = if (- 2 ^ 31 <=? v) && (v <? 2 ^ 31) then (v, None)
    else (if v <? 0 then - 2 ^ 31 else 2 ^ 31 - 1,
          Some (strconv.rangeError "ParseInt" (fmt.Sprint_int64 v))).
Proof.
  intros Hv. change (2 ^ 63) with 9223372036854775808 in Hv.
  assert (Hin : if (- 2 ^ 31 <=? v) && (v <? 2 ^ 31)
                then -2147483648 <= v < 2147483648
                else v < -2147483648 \/ 2147483648 <= v).
  { change (2 ^ 31) with 2147483648.
    destruct (- (2147483648) <=? v) eqn:E1, (v <? 2147483648) eqn:E2; cbn [andb]; lia. }
  destruct ((- 2 ^ 31 <=? v) && (v <? 2 ^ 31)); change (2 ^ 31) with 2147483648;
    unfold fmt.Sprint_int64; destruct (v <? 0) eqn:En.
  - assert (Hw : wrap64 (- v) = - v)
      by (unfold wrap64; apply Z.mod_small; change (2 ^ 64) with 18446744073709551616; lia).
    rewrite Hw. unfold strconv.ParseInt.
    change (byte "-" =? byte "+") with false. change (byte "-" =? byte "-") with true.
    cbv iota. rewrite ParseUint_decimal_32 by (change (2 ^ 64) with 18446744073709551616; lia).
    change maxVal32 with 4294967295.
    destruct (- v <=? 4294967295) eqn:E32; [|lia]. cbv iota zeta.
    change (32 =? 0) with false. cbv iota.
    change (wrap64 (Z.shiftl 1 (32 - 1))) with 2147483648. cbn [negb andb].
    destruct (2147483648 <? - v) eqn:E; [lia|]. f_equal. lia.
  - assert (Hw : wrap64 v = v)
      by (unfold wrap64; apply Z.mod_small; change (2 ^ 64) with 18446744073709551616; lia).
    rewrite Hw.
    pose proof (ParseUint_decimal_32 v ltac:(change (2 ^ 64) with 18446744073709551616; lia))
      as HP.
    destruct (Z.eq_dec v 0) as [-> | Hnz]; [reflexivity|].
    destruct (fmtInteger_loop_head 19 v EmptyString
                ltac:(change (10 ^ Z.of_nat 20) with 100000000000000000000; lia))
      as (c & s' & Hs & Hc).
    rewrite Hs in *. unfold strconv.ParseInt.
    change (byte "+") with 43. change (byte "-") with 45.
    destruct (byte c =? 43) eqn:E1; [lia|]. destruct (byte c =? 45) eqn:E2; [lia|].
    rewrite HP. change maxVal32 with 4294967295.
    destruct (v <=? 4294967295) eqn:E32; [|lia]. cbv iota zeta.
    change (32 =? 0) with false. cbv iota.
    change (wrap64 (Z.shiftl 1 (32 - 1))) with 2147483648. cbn [negb andb].
    destruct (2147483648 <=? v) eqn:E; [lia|]. reflexivity.
  - assert (Hw : wrap64 (- v) = - v)
      by (unfold wrap64; apply Z.mod_small; change (2 ^ 64) with 18446744073709551616; lia).
    rewrite Hw. unfold strconv.ParseInt.
    change (byte "-" =? byte "+") with false. change (byte "-" =? byte "-") with true.
    cbv iota. rewrite ParseUint_decimal_32 by (change (2 ^ 64) with 18446744073709551616; lia).
    change maxVal32 with 4294967295.
    destruct (- v <=? 4294967295) eqn:E32; cbv iota zeta; cbn [strconv.Err strconv.rangeError];
      change (32 =? 0) with false; cbv iota;
      change (wrap64 (Z.shiftl 1 (32 - 1))) with 2147483648; cbn [negb andb].
    + destruct (2147483648 <? - v) eqn:E; [reflexivity | lia].
    + reflexivity.
  - assert (Hw : wrap64 v = v)
      by (unfold wrap64; apply Z.mod_small; change (2 ^ 64) with 18446744073709551616; lia).
    rewrite Hw.
    pose proof (ParseUint_decimal_32 v ltac:(change (2 ^ 64) with 18446744073709551616; lia))
      as HP.
    destruct (fmtInteger_loop_head 19 v EmptyString
                ltac:(change (10 ^ Z.of_nat 20) with 100000000000000000000; lia))
      as (c & s' & Hs & Hc).
    rewrite Hs in *. unfold strconv.ParseInt.
    change (byte "+") with 43. change (byte "-") with 45.
    destruct (byte c =? 43) eqn:E1; [lia|]. destruct (byte c =? 45) eqn:E2; [lia|].
    rewrite HP. change maxVal32 with 4294967295.
    destruct (v <=? 4294967295) eqn:E32; cbv iota zeta; cbn [strconv.Err strconv.rangeError];
      change (32 =? 0) with false; cbv iota;
      change (wrap64 (Z.shiftl 1 (32 - 1))) with 2147483648; cbn [negb andb].
    + destruct (2147483648 <=? v) eqn:E; [reflexivity | lia].
    + reflexivity.
Qed.

Lemma Sprint_int64_not_empty v : String.eqb (fmt.Sprint_int64 v) EmptyString = false.
Proof.
  unfold fmt.Sprint_int64. destruct (v <? 0); [reflexivity|].
  change 20%nat with (S 19). rewrite fmtInteger_loop_S.
  destruct (10 <=? wrap64 v); [|reflexivity].
  rewrite fmtInteger_loop_app.
  destruct (fmt.fmtInteger_loop 19 (wrap64 v / 10) EmptyString); reflexivity.
Qed.

(** ** [Connect] *)

Lemma getDSN_same_but_pool_counts env env' appTitle :
  same_but_pool_counts env env' -> getDSN env' appTitle = getDSN env appTitle.
Proof.
  intros Hsame. unfold getDSN, getDSN_sslmode.
  rewrite !Hsame by discriminate. reflexivity.
Qed.

(** X25: with DAAS_LIFETIME unset or empty, [Connect] calls none of the three
    setters of the pool, and DAAS_MAXIDLE and DAAS_MAXCONN have no
    influence on it at all: two environments that differ only there give
    the same run. *)
Theorem Connect_sizes_only_with_a_lifetime (Getenv Getenv' : environ)
        (sql_Open : string -> string -> pool + error) (c : option sql.Context)
        (appTitle : string) :
  Getenv PGLIFETIME = EmptyString ->
  same_but_pool_counts Getenv Getenv' ->
  filter (fun call => is_pool_setter call = true)
         (pool_calls (PGClient_Connect Getenv sql_Open c appTitle)) = []
  /\ PGClient_Connect Getenv' sql_Open c appTitle = PGClient_Connect Getenv sql_Open c appTitle.
Proof.
  intros Hlife Hsame.
  assert (Hs : Connect_settings Getenv = inl [])
    by (unfold Connect_settings; rewrite Hlife; reflexivity).
  assert (Hs' : Connect_settings Getenv' = inl []).
  { unfold Connect_settings. rewrite (Hsame PGLIFETIME) by discriminate.
    rewrite Hlife. reflexivity. }
  unfold PGClient_Connect.
  rewrite (getDSN_same_but_pool_counts Getenv Getenv' appTitle Hsame), Hs, Hs'.
  rewrite !(Hsame PGHOST), !(Hsame PGDATABASE) by discriminate.
  split; [|reflexivity].
  destruct (sql_Open _ _) as [db|err]; [|reflexivity].
  destruct c as [ctx|]; [|reflexivity].
  destruct (PingContext_answer db ctx); reflexivity.
Qed.

(** X26: when the three variables hold decimal numbers, the lifetime an
    int64 and the two counts int32, and the pool opens and answers the
    ping, [Connect] proceeds with that pool and the given context after
    calling, in this order, SetConnMaxLifetime, SetMaxIdleConns,
    SetMaxOpenConns and PingContext.  The lifetime it passes is the
    number of seconds times 10^9 as an int64: exact up to 9223372036
    seconds, wrapped around beyond, so that a lifetime of 9223372037 to
    18446744073 seconds is passed as a negative duration. *)
Theorem Connect_applies_the_pool_sizes (Getenv : environ)
        (sql_Open : string -> string -> pool + error) (db : pool) (c : sql.Context)
        (appTitle : string) (lifetime maxIdle maxConn : Z) :
  sql_Open "postgres"%string (getDSN Getenv appTitle) = inl db ->
  PingContext_answer db c = None ->
  Getenv PGLIFETIME = fmt.Sprint_int64 lifetime -> in_int64 lifetime ->
  Getenv PGMAXIDLE = fmt.Sprint_int64 maxIdle -> in_int32 maxIdle ->
  Getenv PGMAXCONN = fmt.Sprint_int64 maxConn -> in_int32 maxConn ->
  startup_result (PGClient_Connect Getenv sql_Open (Some c) appTitle)
  = Proceeds {| DB := Some (pool_DB db); client_ctx := Some c |}
  /\ pool_calls (PGClient_Connect Getenv sql_Open (Some c) appTitle)
     = [SetConnMaxLifetime (wrap_int64 (1000000000 * lifetime));
        SetMaxIdleConns maxIdle; SetMaxOpenConns maxConn; PingContext c]
  /\ (- 9223372036 <= lifetime <= 9223372036 ->
      wrap_int64 (1000000000 * lifetime) = 1000000000 * lifetime)
  /\ (9223372036 < lifetime <= 18446744073 ->
      wrap_int64 (1000000000 * lifetime) = 1000000000 * lifetime - 2 ^ 64
      /\ wrap_int64 (1000000000 * lifetime) < 0).
Proof.
  intros Hopen Hping Hlife Hl Hidle Hi Hconn Hn.
  unfold in_int64, in_int32 in *.
  assert (Hs : Connect_settings Getenv
               = inl [SetConnMaxLifetime (wrap_int64 (1000000000 * lifetime));
                      SetMaxIdleConns maxIdle; SetMaxOpenConns maxConn]).
  { unfold Connect_settings. rewrite Hlife, Hidle, Hconn, Sprint_int64_not_empty.
    cbn [negb]. rewrite (ParseInt_Sprint_int64 lifetime Hl).
    rewrite !ParseInt_Sprint_int32
      by (change (2 ^ 31) with 2147483648 in *; change (2 ^ 63) with 9223372036854775808; lia).
    rewrite (proj2 (andb_true_iff _ _) (conj (proj2 (Z.leb_le _ _) (proj1 Hi))
                                             (proj2 (Z.ltb_lt _ _) (proj2 Hi)))).
    rewrite (proj2 (andb_true_iff _ _) (conj (proj2 (Z.leb_le _ _) (proj1 Hn))
                                             (proj2 (Z.ltb_lt _ _) (proj2 Hn)))).
    reflexivity. }
  unfold PGClient_Connect. rewrite Hopen, Hs, Hping. cbn [startup_result pool_calls app].
  split; [reflexivity|]. split; [reflexivity|].
  unfold wrap_int64. change (2 ^ 63) with 9223372036854775808.
  change (2 ^ 64) with 18446744073709551616.
  split; intros Hrange; [|split]; Z.to_euclidean_division_equations; lia.
Qed.

Lemma Connect_settings_fatal (Getenv : environ) :
  Getenv PGLIFETIME <> EmptyString ->
  snd (strconv.ParseInt (Getenv PGMAXIDLE) 0 32) <> None
  \/ snd (strconv.ParseInt (Getenv PGMAXCONN) 0 32) <> None ->
  exists label e, Connect_settings Getenv = inr (label, e).
Proof.
  intros Hlife Hbad. unfold Connect_settings.
  destruct (String.eqb_spec (Getenv PGLIFETIME) EmptyString) as [He|_]; [contradiction|].
  cbn [negb].
  destruct (strconv.ParseInt (Getenv PGLIFETIME) 0 64) as [l [e|]]; [eauto|].
  destruct (strconv.ParseInt (Getenv PGMAXIDLE) 0 32) as [i [e|]]; [eauto|].
  destruct (strconv.ParseInt (Getenv PGMAXCONN) 0 32) as [n [e|]]; [eauto|].
  cbn [snd] in Hbad. destruct Hbad as [Hbad | Hbad]; contradiction.
Qed.

Lemma ParseInt_32_out_of_range n :
  in_int64 n -> ~ in_int32 n -> snd (strconv.ParseInt (fmt.Sprint_int64 n) 0 32) <> None.
Proof.
  unfold in_int64, in_int32. intros Hn Hout. rewrite (ParseInt_Sprint_int32 n Hn).
  destruct ((- 2 ^ 31 <=? n) && (n <? 2 ^ 31)) eqn:E; [|discriminate].
  apply andb_true_iff in E as [E1 E2]. apply Z.leb_le in E1. apply Z.ltb_lt in E2. lia.
Qed.

(** X27: when DAAS_LIFETIME is set, the two counts have to come with it: if
    DAAS_MAXIDLE or DAAS_MAXCONN is unset or empty, or a decimal number
    that is no int32, startup ends in [Fatal] on a number error, before any
    setter is called (the lifetime is not applied either) and before the
    ping. *)
Theorem Connect_wants_all_three_sizes (Getenv : environ)
        (sql_Open : string -> string -> pool + error) (db : pool) (c : option sql.Context)
        (appTitle : string) :
  sql_Open "postgres"%string (getDSN Getenv appTitle) = inl db ->
  Getenv PGLIFETIME <> EmptyString ->
  Getenv PGMAXIDLE = EmptyString \/ Getenv PGMAXCONN = EmptyString
  \/ (exists n, Getenv PGMAXIDLE = fmt.Sprint_int64 n /\ in_int64 n /\ ~ in_int32 n)
  \/ (exists n, Getenv PGMAXCONN = fmt.Sprint_int64 n /\ in_int64 n /\ ~ in_int32 n) ->
  exists label e,
    PGClient_Connect Getenv sql_Open c appTitle
    = {| startup_result := Fatal label (ArgNumError e); pool_calls := []; connect_log := [] |}.
Proof.
  intros Hopen Hlife Hbad.
  destruct (Connect_settings_fatal Getenv Hlife) as (label & e & Hs).
  { destruct Hbad as [Hb | [Hb | [(n & Hb & Hn & Hout) | (n & Hb & Hn & Hout)]]]; rewrite Hb.
    - left. discriminate.
    - right. discriminate.
    - left. apply ParseInt_32_out_of_range; assumption.
    - right. apply ParseInt_32_out_of_range; assumption. }
  exists label, e. unfold PGClient_Connect. rewrite Hopen, Hs. reflexivity.
Qed.

(** An environment with a host and a database only, and one that also
    sets the two counts. *)
Lemma Connect_sizes_only_with_a_lifetime_witness :
  PGClient_Connect (sized_environ "" "10" "100") (fun _ _ => inl ready_pool)
                   (Some sql.Background) "app"
  = PGClient_Connect (sized_environ "" "" "") (fun _ _ => inl ready_pool)
                     (Some sql.Background) "app".
Proof.
  refine (proj2 (Connect_sizes_only_with_a_lifetime
                   (sized_environ "" "" "") (sized_environ "" "10" "100")
                   (fun _ _ => inl ready_pool) (Some sql.Background) "app" eq_refl _)).
  intros name Hidle Hconn. unfold sized_environ.
  destruct (String.eqb_spec name PGLIFETIME); [reflexivity|].
  destruct (String.eqb_spec name PGMAXIDLE); [contradiction|].
  destruct (String.eqb_spec name PGMAXCONN); [contradiction|].
  reflexivity.
Defined.

(** A lifetime of half an hour, at most 10 idle and 100 open connections. *)
Lemma Connect_applies_the_pool_sizes_witness :
  pool_calls (PGClient_Connect (sized_environ "1800" "10" "100") (fun _ _ => inl ready_pool)
                               (Some sql.Background) "app")
  = [SetConnMaxLifetime (wrap_int64 (1000000000 * 1800)); SetMaxIdleConns 10;
     SetMaxOpenConns 100; PingContext sql.Background].
Proof.
  refine (proj1 (proj2 (Connect_applies_the_pool_sizes
                          (sized_environ "1800" "10" "100") (fun _ _ => inl ready_pool)
                          ready_pool sql.Background "app" 1800 10 100
                          eq_refl eq_refl eq_refl _ eq_refl _ eq_refl _)));
    split; (discriminate || reflexivity).
Defined.

(** A lifetime without the two counts. *)
Lemma Connect_wants_all_three_sizes_witness :
  exists label e,
    PGClient_Connect (sized_environ "1800" "" "") (fun _ _ => inl ready_pool)
                     (Some sql.Background) "app"
    = {| startup_result := Fatal label (ArgNumError e); pool_calls := []; connect_log := [] |}.
Proof.
  apply (Connect_wants_all_three_sizes (sized_environ "1800" "" "")
           (fun _ _ => inl ready_pool) ready_pool (Some sql.Background) "app" eq_refl).
  - discriminate.
  - left. reflexivity.
Defined.

(** ** The lines of the logger *)

Lemma sqlQuery_lines_fixed_lead i lead lines :
  lead <> 0 ->
  sqlQuery_lines i lead lines
  = map (fun line => logNone_Println (strings_ReplaceAll (cut_at lead line) (String TAB "") "  "))
        lines.
Proof.
  intros Hlead. revert i. induction lines as [|line lines IH]; intros i; [reflexivity|].
  cbn [sqlQuery_lines map].
  rewrite (proj2 (Z.eqb_neq lead 0) Hlead), andb_false_r. rewrite IH. reflexivity.
Qed.

(** X24: when the first line of the query starts with blanks, their count
    sets the column for every line: a line longer than that count is
    logged from two bytes before that column on, whatever its own
    indentation is, and a line that is not longer is logged whole; tabs
    are logged as two spaces. *)
Theorem sqlQuery_lines_cut_at_one_column (first : string) (lines : list string) :
  leadingSpace first <> 0 ->
  sqlQuery_lines O 0 (first :: lines)
  = map (fun line =>
           logNone_Println
             (strings_ReplaceAll (cut_at (leadingSpace first) line) (String TAB "") "  "))
        (first :: lines).
Proof.
  intros Hlead. cbn [sqlQuery_lines map Nat.ltb Nat.leb andb].
  change (0 =? 0) with true. cbv iota.
  rewrite (sqlQuery_lines_fixed_lead 1 (leadingSpace first) lines Hlead). reflexivity.
Qed.

(** A query of three lines indented by four, two and six blanks. *)
Lemma sqlQuery_lines_cut_at_one_column_witness :
  sqlQuery_lines O 0 ["    SELECT id"; "  FROM t"; "      WHERE id = 1"]
  = [logNone_Println "  SELECT id"; logNone_Println "FROM t";
     logNone_Println "    WHERE id = 1"].
Proof.
  rewrite (sqlQuery_lines_cut_at_one_column "    SELECT id"
             ["  FROM t"; "      WHERE id = 1"]) by discriminate.
  reflexivity.
Defined.

(** ** [FetchAll] and [FetchOneColumn]: the error that is never set *)

Section FetchNeverFails.

Context `{Library}.

Lemma FetchAll_loop_nil_error stx cols todo acc :
  exists record, result (FetchAll_loop stx cols todo acc) = Returns (record, None).
Proof.
  revert acc. induction todo as [|r todo IH]; intros acc; [eexists; reflexivity|].
  cbn [FetchAll_loop]. rewrite bind_result. unfold PGTx_FetchRow.
  destruct (fetchRow_returns {| sql.columns := cols; sql.current := Some r;
                                sql.pending := todo |}) as [[data err] Hr].
  rewrite Hr. destruct err; [eexists; reflexivity | apply IH].
Qed.

(** X9: [FetchAll] and [FetchOneColumn] return on every cursor, and the error
    they return is nil on every cursor: whether a fetch went wrong cannot
    be read from it. *)
Theorem FetchAll_error_is_always_nil (stx : PGTx) (rows : sql.Rows) (columnName : string) :
  (exists record, result (PGTx_FetchAll stx rows) = Returns (record, None))
  /\ (exists subset, result (PGTx_FetchOneColumn stx rows columnName) = Returns (subset, None)).
Proof.
  split; [apply FetchAll_loop_nil_error|].
  unfold PGTx_FetchOneColumn.
  rewrite (FetchOneColumn_loop_FetchAll_loop stx _ _ columnName []), bind_result.
  destruct (FetchAll_loop_nil_error stx (sql.columns rows) (sql.pending rows) [])
    as [record Hr].
  unfold PGRecord in *. rewrite Hr. eexists. reflexivity.
Qed.

End FetchNeverFails.

(** ** [Begin] on the client [Connect] sets up *)

(** X28: when [Connect] proceeds, the pool was opened and has answered the
    ping on the context given, and [Begin] on the client it set up does
    not panic: it returns a scope that is not closed and is bound to that
    context, around the transaction the pool granted or around nil, and
    next to it what the pool answered. *)
Theorem Begin_after_Connect (Getenv : environ) (sql_Open : string -> string -> pool + error)
        (c : option sql.Context) (appTitle : string) (pg : PGClient) :
  startup_result (PGClient_Connect Getenv sql_Open c appTitle) = Proceeds pg ->
  exists db c' stx,
    sql_Open "postgres"%string (getDSN Getenv appTitle) = inl db
    /\ c = Some c' /\ PingContext_answer db c' = None
    /\ PGClient_Begin pg
       = Run (Returns (Some stx, match sql.BeginTx (pool_DB db) c' with
                                 | inl _ => None
                                 | inr e => Some e
                                 end)) []
    /\ Closed stx = false /\ ctx stx = Some c'
    /\ tx stx = match sql.BeginTx (pool_DB db) c' with
                | inl t => Some t
                | inr _ => None
                end.
Proof.
  unfold PGClient_Connect.
  destruct (sql_Open _ _) as [db|err]; [|discriminate].
  destruct (Connect_settings Getenv) as [settings|[label err]]; [|discriminate].
  destruct c as [c'|]; [|discriminate].
  destruct (PingContext_answer db c') eqn:Hping; [discriminate|].
  cbn [startup_result]. intros [= <-].
  exists db, c'. unfold PGClient_Begin. cbn [DB client_ctx].
  destruct (sql.BeginTx (pool_DB db) c'); eexists; repeat split;
    first [exact Hping | reflexivity].
Qed.

(** A pool that opens and answers the ping but grants no transaction. *)
Lemma Begin_after_Connect_witness :
  exists stx,
    PGClient_Begin {| DB := Some (pool_DB ready_pool); client_ctx := Some sql.Background |}
    = Run (Returns (Some stx, Some (errorString "sql: database is closed"))) []
    /\ Closed stx = false.
Proof.
  destruct (Begin_after_Connect (sized_environ "" "" "") (fun _ _ => inl ready_pool)
              (Some sql.Background) "app"
              {| DB := Some (pool_DB ready_pool); client_ctx := Some sql.Background |} eq_refl)
    as (db & c' & stx & [= <-] & [= <-] & _ & Hbegin & Hopen & _).
  exists stx. split; [exact Hbegin | exact Hopen].
Defined.

(** ** The signal channel after [CreateChannel] *)

(** On an open channel the callback sends one value when the buffer has
    room, and blocks when it has none. *)
Lemma CreateChannel_callback_sends_one (c : chan) (e : pq.ListenerEventType)
      (err : option error) :
  chan_closed c = false ->
  if (length (buf c) <? cap c)%nat
  then exists c', snd (CreateChannel_callback c e err) = Sent c'
                  /\ cap c' = cap c /\ chan_closed c' = false
                  /\ length (buf c') = S (length (buf c))
  else snd (CreateChannel_callback c e err) = SendBlocks.
Proof.
  intros Hopen. unfold CreateChannel_callback, chan_send_unreceived. cbn [snd].
  rewrite Hopen. destruct (length (buf c) <? cap c)%nat.
  - destruct e; eexists; (split; [reflexivity|]); cbn [cap buf chan_closed];
      rewrite length_app; cbn [length]; repeat split; first [exact Hopen | lia].
  - destruct e; reflexivity.
Qed.

(** X29: [CreateChannel] receives from the signal channel once, and the
    callback it registered sends one value at every event of the
    listener.  On the handle it returns, as long as nothing else receives
    from the channel, the callback gets through at the next two events
    and blocks at the third, whatever the events are; and once [Close]
    has closed the channel, the callback panics at the next event with a
    send on a closed channel. *)
Theorem callback_blocks_at_the_third_event (Getenv : environ) (appTitle : string)
        (listen_answer : string -> option error) (ping_answer : option error)
        (e : pq.ListenerEventType) (err : option error) (pg : PGNotify) (r : option error) :
  result (PGClient_CreateChannel Getenv appTitle listen_answer ping_answer e err)
  = Returns (pg, r) ->
  (forall e1 err1 e2 err2 e3 err3,
      exists c1 c2,
        snd (CreateChannel_callback (fail pg) e1 err1) = Sent c1
        /\ snd (CreateChannel_callback c1 e2 err2) = Sent c2
        /\ snd (CreateChannel_callback c2 e3 err3) = SendBlocks)
  /\ (forall e1 err1,
         snd (CreateChannel_callback (fail (fst (PGNotify_Close pg))) e1 err1)
         = SendPanics SendOnClosedChannel).
Proof.
  intros Hcreate.
  assert (Hfail : fail pg = make_chan 2).
  { destruct e, err; cbn in Hcreate; injection Hcreate as <- _; reflexivity. }
  rewrite Hfail. split.
  - intros e1 err1 e2 err2 e3 err3.
    pose proof (CreateChannel_callback_sends_one (make_chan 2) e1 err1 eq_refl) as H1.
    cbn [make_chan buf cap length Nat.ltb Nat.leb] in H1.
    destruct H1 as (c1 & Hc1 & Hcap1 & Hopen1 & Hlen1).
    pose proof (CreateChannel_callback_sends_one c1 e2 err2 Hopen1) as H2.
    rewrite ?Hcap1, ?Hlen1 in H2. cbn [Nat.ltb Nat.leb] in H2.
    destruct H2 as (c2 & Hc2 & Hcap2 & Hopen2 & Hlen2).
    pose proof (CreateChannel_callback_sends_one c2 e3 err3 Hopen2) as H3.
    rewrite ?Hcap2, ?Hcap1, ?Hlen2, ?Hlen1 in H3. cbn [Nat.ltb Nat.leb] in H3.
    exists c1, c2. repeat split; assumption.
  - intros e1 err1. unfold PGNotify_Close. rewrite Hfail. cbn.
    destruct (pq.Close (ln pg)) as [l cerr]. cbn.
    destruct e1; reflexivity.
Qed.

(** A listener whose first three connection attempts fail, and a fourth. *)
Lemma callback_blocks_at_the_third_event_witness :
  exists c1 c2,
    snd (CreateChannel_callback (make_chan 2) pq.ListenerEventConnectionAttemptFailed
           (Some (errorString "dial tcp: connection refused"))) = Sent c1
    /\ snd (CreateChannel_callback c1 pq.ListenerEventConnectionAttemptFailed
              (Some (errorString "dial tcp: connection refused"))) = Sent c2
    /\ snd (CreateChannel_callback c2 pq.ListenerEventConnectionAttemptFailed
              (Some (errorString "dial tcp: connection refused"))) = SendBlocks.
Proof.
  exact (proj1 (callback_blocks_at_the_third_event
                  (fun _ => EmptyString) "app" (fun _ => None) None
                  pq.ListenerEventConnectionAttemptFailed
                  (Some (errorString "dial tcp: connection refused"))
                  {| ln := pq.NewListener (fun _ => None) None; fail := make_chan 2 |}
                  (Some (errorString "dial tcp: connection refused")) eq_refl)
               pq.ListenerEventConnectionAttemptFailed
               (Some (errorString "dial tcp: connection refused"))
               pq.ListenerEventConnectionAttemptFailed
               (Some (errorString "dial tcp: connection refused"))
               pq.ListenerEventConnectionAttemptFailed
               (Some (errorString "dial tcp: connection refused"))).
Defined.
